(** * node-imap typings: the declared types and their inhabitants

    The repository consists of two TypeScript declaration files: the modules
    ['imap/types'] and ['imap'] (index.d.ts) and the Gmail extension module
    ['imap/add/extension/gmail'].  A declaration file has no statements to
    run; what it fixes is which JavaScript values each declared type admits.
    The development therefore transcribes the declared types as terms of a
    small type language [ty], one definition per declaration and under the
    declaration's own name, and gives the type language its structural
    meaning as an executable membership test [inhabits] over JavaScript
    values. *)

From Stdlib Require Import String Ascii List ZArith NArith Bool Lia.
From Stdlib Require Import DecimalString DecimalN DecimalZ DecimalPos.
Import ListNotations.
Open Scope string_scope.
Set Warnings "-register-all".

(** ** JavaScript values *)

(** Numbers are kept to the integers: every number the typings speak of is a
    UID, a sequence number, a size or a count. *)
Inductive value : Type :=
| VUndefined
| VNull
| VBool (b : bool)
| VNum (n : Z)
| VStr (s : string)
| VDate (ms : Z)
| VArr (items : list value)
| VObj (props : list (string * value)).

(** ** The fragment of TypeScript's type language the typings use *)

Inductive ty : Type :=
| TAny
| TBoolean
| TNumber
| TString
| TDate
| TNull
| TLit (s : string)
| TLitBool (b : bool)
| TUnion (alts : list ty)
| TTuple (slots : list ty)
| TArray (elem : ty)
| TObject (members : list (string * ty)).

Section ListTests.
Context {A B : Type}.
Variable f : A -> B -> bool.

  (** Pointwise test of two lists of the same length. *)
Fixpoint all2 (l : list A) (l' : list B) {struct l} : bool :=
    match l, l' with
    | [], [] => true
    | a :: r, b :: r' => f a b && all2 r r'
    | _, _ => false
    end.
End ListTests.

(** Property lookup [obj[k]]: the first binding wins. *)
Fixpoint getProp (k : string) (props : list (string * value)) : option value :=
  match props with
  | [] => None
  | (k', v) :: rest => if String.eqb k k' then Some v else getProp k rest
  end.

(** Structural typing: [inhabits t v] holds when the value [v] is assignable
    to the type [t].  A tuple type fixes the length and types each slot, an
    array type types every element, an object type asks for each declared
    member and allows further properties. *)
Fixpoint inhabits (t : ty) (v : value) {struct t} : bool :=
  match t with
  | TAny => true
  | TBoolean => match v with VBool _ => true | _ => false end
  | TNumber => match v with VNum _ => true | _ => false end
  | TString => match v with VStr _ => true | _ => false end
  | TDate => match v with VDate _ => true | _ => false end
  | TNull => match v with VNull => true | _ => false end
  | TLit s => match v with VStr s' => String.eqb s s' | _ => false end
  | TLitBool b => match v with VBool b' => Bool.eqb b b' | _ => false end
  | TUnion alts => existsb (fun a => inhabits a v) alts
  | TTuple slots =>
      match v with
      | VArr items => all2 (fun s x => inhabits s x) slots items
      | _ => false
      end
  | TArray elem =>
      match v with
      | VArr items => forallb (fun x => inhabits elem x) items
      | _ => false
      end
  | TObject members =>
      match v with
      | VObj props =>
          forallb (fun m => match getProp (fst m) props with
                            | Some x => inhabits (snd m) x
                            | None => false
                            end) members
      | _ => false
      end
  end.

(** An interface declaration: its heritage clause and its own members. *)
Record interface : Type := Interface {
  extends : list string;
  members : list (string * ty)
}.

Definition lits (keys : list string) : ty := TUnion (map TLit keys).

(** A member of an interface that may be marked optional ([name?: T]). *)
Record member : Type := Member {
  m_name : string;
  m_optional : bool;
  m_type : ty
}.

(** An optional member may be absent or hold [undefined]; a required one is
    present with a value of its type. *)
Definition has_member (props : list (string * value)) (m : member) : bool :=
  match getProp (m_name m) props with
  | Some VUndefined => m_optional m || inhabits (m_type m) VUndefined
  | Some x => inhabits (m_type m) x
  | None => m_optional m
  end.

(** A type with at least one member, all of them optional, is a weak type:
    an object that has properties must share one with it. *)
Definition weak (ms : list member) : bool :=
  match ms with
  | [] => false
  | _ => forallb m_optional ms
  end.

Definition shares_member (ms : list member) (props : list (string * value)) : bool :=
  existsb (fun m => match getProp (m_name m) props with
                    | Some _ => true
                    | None => false
                    end) ms.

Definition has_members (ms : list member) (v : value) : bool :=
  match v with
  | VObj props =>
      forallb (has_member props) ms &&
      (negb (weak ms) ||
       match props with
       | [] => true
       | _ => shares_member ms props
       end)
  | _ => false
  end.

(** The type [{}]: every value but [null] and [undefined]. *)
Definition EmptyObjectType (v : value) : bool :=
  match v with
  | VUndefined => false
  | VNull => false
  | _ => true
  end.

(** A function type has no inhabitant among the values modelled here. *)
Definition TFunction : ty := TUnion [].

(** ** declare module 'imap/types' *)

Module ImapTypes.

  (** [MessageSource]: a message identifier, an identifier range, or an
      array of either. *)
Definition MessageSource : ty :=
    TUnion [TNumber; TString; TArray (TUnion [TNumber; TString])].

Definition SearchTermNoParam : ty :=
    lits [ "ALL"; "!ALL";
           "ANSWERED"; "!ANSWERED";
           "DELETED"; "!DELETED";
           "DRAFT"; "!DRAFT";
           "FLAGGED"; "!FLAGGED";
           "NEW"; "!NEW";
           "SEEN"; "!SEEN";
           "RECENT"; "!RECENT";
           "OLD"; "!OLD";
           "UNANSWERED"; "!UNANSWERED";
           "UNDELETED"; "!UNDELETED";
           "UNDRAFT"; "!UNDRAFT";
           "UNFLAGGED"; "!UNFLAGGED";
           "UNSEEN"; "!UNSEEN" ].

Definition SearchTermStringParam : ty :=
    TTuple [ lits [ "BCC"; "!BCC";
                    "CC"; "!CC";
                    "FROM"; "!FROM";
                    "SUBJECT"; "!SUBJECT";
                    "TO"; "!TO";
                    "BODY"; "!BODY";
                    "TEXT"; "!TEXT";
                    "KEYWORD"; "!KEYWORD" ];
             TString ].

  (** The header term as declared: four slots, the first two fixed. *)
Definition SearchTermStringParam2 : ty :=
    TTuple [ TLit "HEADER"; TLit "!HEADER"; TString; TString ].

Definition SearchTermDateParam : ty :=
    TTuple [ lits [ "BEFORE"; "!BEFORE";
                    "ON"; "!ON";
                    "SINCE"; "!SINCE";
                    "SENTBEFORE"; "!SENTBEFORE";
                    "SENTON"; "!SENTON";
                    "SENTSINCE"; "!SENTSINCE" ];
             TUnion [TString; TDate] ].

Definition SearchTermIntParam : ty :=
    TTuple [ lits [ "LARGER"; "!LARGER";
                    "SMALLER"; "!SMALLER" ];
             TNumber ].

Definition SearchTermUID : ty := TArray (TUnion [TNumber; TString]).

Definition _SearchTerm : ty :=
    TUnion [ SearchTermNoParam;
             SearchTermStringParam;
             SearchTermStringParam2;
             SearchTermDateParam;
             SearchTermIntParam;
             SearchTermUID ].

Definition SearchTerm : ty :=
    TUnion [ _SearchTerm; TTuple [TLit "OR"; _SearchTerm; _SearchTerm] ].

  (** System flags of RFC 3501; the backslash is part of the flag. *)
Definition ImapMessageFlags : ty :=
    lits [ "\Seen"; "\Answered"; "\Flagged"; "\Deleted"; "\Draft" ].

Definition IImapMessageAttributes : interface :=
    {| extends := [];
       members := [ ("uid", TNumber);
                    ("flags", TArray ImapMessageFlags);
                    ("date", TDate);
                    ("struct", TArray TAny);
                    ("size", TNumber) ] |}.

(** [SearchCallback = (err: Error, uids: number[]) => void]: the type of
    the [uids] it is called with. *)
Definition SearchCallback_uids : ty := TArray TNumber.

End ImapTypes.

(** ** declare module 'imap/add/extension/gmail' *)

Module Gmail.
Import ImapTypes.

Definition GmailSearchTerm : ty :=
    TTuple [ lits [ "X-GM-RAW"; "X-GM-THRID"; "X-GM-MSGID"; "X-GM-LABELS" ];
             TString ].

Definition _GSearchTerm : ty := TUnion [ _SearchTerm; GmailSearchTerm ].

Definition GSearchTerm : ty :=
    TUnion [ _GSearchTerm; TTuple [TLit "OR"; _GSearchTerm; _GSearchTerm] ].

  (** The module's own interface of that name: no heritage clause. *)
Definition IImapMessageAttributes : interface :=
    {| extends := [];
       members := [ ("x-gm-thrid", TString);
                    ("x-gm-msgid", TString);
                    ("x-gm-labels", TArray TString) ] |}.

  (** [search(criteria: GSearchTerm[], callback)]: the criteria parameter. *)
Definition search_criteria : ty := TArray GSearchTerm.

(** The label methods the module adds to [IConnectionCommon]: the name, the
    type of [source] and the type of [labels]. *)
Definition IConnectionCommon_labels : list (string * (ty * ty)) :=
  [ ("setLabels", (MessageSource, TUnion [TString; TArray TString]));
    ("addLabels", (MessageSource, TUnion [TString; TArray TString]));
    ("delLabels", (MessageSource, TUnion [TString; TArray TString])) ].

End Gmail.

(** ** declare module 'imap' *)

Module Imap.
Import ImapTypes.

  (** [IConnection.state]. *)
Definition IConnection_state : ty :=
    lits [ "disconnected"; "connected"; "authenticated" ].

  (** [IConnectionCommon.search(criteria: SearchTerm[], callback)]. *)
Definition search_criteria : ty := TArray SearchTerm.

  (** [IConnectionCommon.setFlags(source, flags, callback)]: the first two
      parameters. *)
Definition setFlags_source : ty := MessageSource.
Definition setFlags_flags : ty := TUnion [TString; TArray TString].

  (** The two registration methods of an event emitter, and the event names
      each is declared for on [IConnection]. *)
Inductive method : Type := on | once.

Definition IConnection_events (m : method) : list string :=
    match m with
    | once => [ "ready"; "error"; "end" ]
    | on => [ "alert"; "mail"; "expunge"; "uidvalidity"; "update"; "close" ]
    end.

(** [IFetchOptions]: every member is optional. *)
Definition IFetchOptions : list member :=
  [ {| m_name := "markSeen"; m_optional := true; m_type := TBoolean |};
    {| m_name := "struct"; m_optional := true; m_type := TBoolean |};
    {| m_name := "envelope"; m_optional := true; m_type := TBoolean |};
    {| m_name := "size"; m_optional := true; m_type := TBoolean |};
    {| m_name := "modifiers"; m_optional := true; m_type := TAny |};
    {| m_name := "extensions"; m_optional := true; m_type := TArray TString |};
    {| m_name := "bodies"; m_optional := true;
       m_type := TUnion [TString; TArray TString] |} ].

(** [IConnectionCommon.fetch(source: MessageSource, options: {})]. *)
Definition fetch_source : ty := MessageSource.
Definition fetch_options : value -> bool := EmptyObjectType.

(** The object alternative of [IConnectionConfig.keepalive]. *)
Definition keepalive_settings : ty :=
  TObject [ ("interval", TNumber);
            ("idleInterval", TNumber);
            ("forceNoop", TBoolean) ].

Definition IConnectionConfig : list member :=
  [ {| m_name := "user"; m_optional := false; m_type := TString |};
    {| m_name := "password"; m_optional := false; m_type := TString |};
    {| m_name := "xoauth"; m_optional := true; m_type := TString |};
    {| m_name := "xoauth2"; m_optional := true; m_type := TString |};
    {| m_name := "host"; m_optional := true; m_type := TString |};
    {| m_name := "port"; m_optional := true; m_type := TNumber |};
    {| m_name := "tls"; m_optional := true; m_type := TBoolean |};
    {| m_name := "tlsOptions"; m_optional := true; m_type := TAny |};
    {| m_name := "autotls"; m_optional := true;
       m_type := lits [ "always"; "required"; "never" ] |};
    {| m_name := "connTimeout"; m_optional := true; m_type := TNumber |};
    {| m_name := "authTimeout"; m_optional := true; m_type := TNumber |};
    {| m_name := "socketTimeout"; m_optional := true; m_type := TNumber |};
    {| m_name := "keepalive"; m_optional := true;
       m_type := TUnion [ TLitBool true; keepalive_settings ] |};
    {| m_name := "debug"; m_optional := true; m_type := TFunction |} ].

Definition IAppendOptions : list member :=
  [ {| m_name := "mailbox"; m_optional := true; m_type := TString |};
    {| m_name := "flags"; m_optional := true;
       m_type := TUnion [TString; TArray TString] |};
    {| m_name := "date"; m_optional := true; m_type := TDate |} ].

(** The methods of [IConnectionCommon] that take a source and a mailbox
    name, and those that take a source and flags or keywords: the name,
    the type of [source] and the type of the second parameter. *)
Definition IConnectionCommon_transfers : list (string * (ty * ty)) :=
  [ ("copy", (MessageSource, TString));
    ("move", (MessageSource, TString)) ].

Definition IConnectionCommon_mutators : list (string * (ty * ty)) :=
  [ ("addFlags", (MessageSource, TUnion [TString; TArray TString]));
    ("delFlags", (MessageSource, TUnion [TString; TArray TString]));
    ("setFlags", (MessageSource, TUnion [TString; TArray TString]));
    ("addKeywords", (MessageSource, TUnion [TString; TArray TString]));
    ("delKeywords", (MessageSource, TUnion [TString; TArray TString]));
    ("setKeywords", (MessageSource, TUnion [TString; TArray TString])) ].

End Imap.

(** ** Notions derived from the declarations *)

(** The element type of [SearchTermUID], as a test on values. *)
Definition scalar (v : value) : bool := inhabits (TUnion [TNumber; TString]) v.

(** The keyword slot of a parameterised term pairs every keyword with its
    negation. *)
Definition negation_in_same_slot (T : ty) : Prop :=
  forall k arg,
    inhabits T (VArr [VStr k; arg]) = true ->
    inhabits T (VArr [VStr ("!" ++ k); arg]) = true \/
    exists k', k = "!" ++ k' /\ inhabits T (VArr [VStr k'; arg]) = true.

(** A keyword slot lists every positive keyword next to its negation. *)
Definition with_negations (keys : list string) : list string :=
  flat_map (fun k => [k; "!" ++ k]) keys.

(** The object type of an interface without heritage clause: its own
    members. *)
Definition interface_type (i : interface) : ty := TObject (members i).

Definition member_names (i : interface) : list string := map fst (members i).

(** ** The spec's search criterion, as a variant over values

    The data model of the spec describes a search criterion as a variant:
    a flag test without argument, a string match on one string (HEADER on
    two), a date-range term on a date, an integer comparison on a number, a
    UID list, an extension key with its value, the negation of a term, and
    the OR of two terms.  [criterion] spells those shapes out over
    JavaScript values, in the words of the data model, to be compared with
    the declared types [SearchTerm] and [GSearchTerm].  Negation is the
    '!'-prefixed keyword of a flag, string, date or integer term, the
    operands of OR are criteria other than OR, and a UID list holds
    positive numbers and UID texts. *)

Module SearchCriterion.

Definition flag_keys : list string :=
  [ "ALL"; "ANSWERED"; "DELETED"; "DRAFT"; "FLAGGED"; "NEW"; "SEEN"; "RECENT";
    "OLD"; "UNANSWERED"; "UNDELETED"; "UNDRAFT"; "UNFLAGGED"; "UNSEEN" ].

Definition string_keys : list string :=
  [ "BCC"; "CC"; "FROM"; "SUBJECT"; "TO"; "BODY"; "TEXT"; "KEYWORD" ].

Definition date_keys : list string :=
  [ "BEFORE"; "ON"; "SINCE"; "SENTBEFORE"; "SENTON"; "SENTSINCE" ].

Definition int_keys : list string := [ "LARGER"; "SMALLER" ].

Definition gmail_keys : list string :=
  [ "X-GM-RAW"; "X-GM-THRID"; "X-GM-MSGID"; "X-GM-LABELS" ].

(** A UID as text: a number, '*', or a range of them such as '2504:2507'
    or '2504:*'. *)
Definition uid_char (c : ascii) : bool :=
  let n := nat_of_ascii c in
  ((48 <=? n)%nat && (n <=? 57)%nat) || Ascii.eqb c "*"%char || Ascii.eqb c ":"%char.

Definition uid_text (s : string) : bool :=
  match s with
  | EmptyString => false
  | _ => forallb uid_char (list_ascii_of_string s)
  end.

(** An element of a UID list: a positive number or a UID text. *)
Definition uid_item (x : value) : bool :=
  match x with
  | VNum n => (0 <? n)%Z
  | VStr s => uid_text s
  | _ => false
  end.

(** A date argument is a string or a [Date]. *)
Definition date_argument (d : value) : Prop :=
  (exists s, d = VStr s) \/ (exists ms, d = VDate ms).



Section Grammar.
Variable extension_keys : list string.




End Grammar.

End SearchCriterion.

(** * The client engine behind the declarations

    The typings declare the operations and events of the IMAP client and
    hold no implementation of them.  The modules below model, from the
    spec's description of the engine, the parts the properties speak of:
    the session tracker, the command pipeline, the criteria compiler with
    the server's reading of the text it sends, and the event dispatcher.  Where a declaration of the typings fixes a
    detail (the registration method of an event, the shape of an argument),
    the model takes it from the declaration. *)

Module Tracker.

(** Modelled from the spec: the session states of the Mailbox/Session State
    Tracker (4.3), absent from the typings. *)
Inductive state : Type := disconnected | connected | authenticated | selected.

Definition state_name (s : state) : string :=
  match s with
  | disconnected => "disconnected"
  | connected => "connected"
  | authenticated => "authenticated"
  | selected => "selected"
  end.

(** What moves the session: the transport comes up, the login succeeds, an
    [openBox] succeeds or fails, [closeBox], the transport closes, and
    [destroy]. *)
Inductive signal : Type :=
| transport_open
| login_ok
| openBox_ok
| openBox_failed
| closeBox
| transport_close
| destroy.

(** Modelled from the spec: the transitions of 4.3.  A signal that does not
    apply in the current state leaves it as it is. *)
Definition step (s : state) (g : signal) : state :=
  match g, s with
  | transport_close, _ => disconnected
  | destroy, _ => disconnected
  | transport_open, disconnected => connected
  | login_ok, connected => authenticated
  | openBox_ok, authenticated => selected
  | openBox_ok, selected => selected
  | closeBox, selected => authenticated
  | _, _ => s
  end.

Definition run (s : state) (gs : list signal) : state := fold_left step gs s.

(** A cached message: its sequence number in the selected mailbox, its UID
    and its flags. *)
Record message : Type := Message {
  seqno : N;
  uid : N;
  flags : list string
}.

(** The mailbox snapshot: the counts and the UID validity. *)
Record mailbox : Type := Mailbox {
  total : N;
  recent : N;
  uidvalidity : N
}.

Record tracker : Type := TrackerState {
  session : state;
  box : mailbox;
  cache : list message
}.

(** The untagged updates the tracker applies. *)
Inductive untagged : Type :=
| EXISTS (count : N)
| EXPUNGE (seq : N)
| FETCH (seq : N) (fl : list string)
| RECENT (count : N).

(** The notifications handed to the dispatcher. *)
Inductive notification : Type :=
| mail (numNewMsgs : N)
| expunge (seq : N)
| update (seq : N) (fl : list string).

(** Modelled from the spec: on [EXPUNGE seq] every cached sequence number
    greater than [seq] is decremented by one. *)
Definition renumber (seq : N) (m : message) : message :=
  if (seq <? seqno m)%N
  then {| seqno := seqno m - 1; uid := uid m; flags := flags m |}
  else m.

Definition refresh (seq : N) (fl : list string) (m : message) : message :=
  if (seqno m =? seq)%N
  then {| seqno := seqno m; uid := uid m; flags := fl |}
  else m.

(** Modelled from the spec: the untagged updates of 4.3, applied to the
    snapshot and the cache, with the notification each one raises. *)
Definition applyUntagged (u : untagged) (t : tracker) : tracker * list notification :=
  match u with
  | EXISTS count =>
      ({| session := session t;
          box := {| total := count; recent := recent (box t);
                    uidvalidity := uidvalidity (box t) |};
          cache := cache t |},
       if (total (box t) <? count)%N then [mail (count - total (box t))] else [])
  | EXPUNGE seq =>
      ({| session := session t; box := box t;
          cache := map (renumber seq) (cache t) |},
       [expunge seq])
  | FETCH seq fl =>
      ({| session := session t; box := box t;
          cache := map (refresh seq fl) (cache t) |},
       [update seq fl])
  | RECENT count =>
      ({| session := session t;
          box := {| total := total (box t); recent := count;
                    uidvalidity := uidvalidity (box t) |};
          cache := cache t |},
       [])
  end.

(** The [flags] argument of [setFlags] is one flag or an array of flags. *)
Definition flag_list (fl : value) : list string :=
  match fl with
  | VStr f => [f]
  | VArr items =>
      flat_map (fun x => match x with VStr f => [f] | _ => [] end) items
  | _ => []
  end.

Section Store.
(** How a [MessageSource] picks messages out of the mailbox is left open:
    what follows holds for every resolution. *)
Variable selects : value -> message -> bool.

(** Modelled from the spec: [setFlags] replaces the flags of every message
    the source selects by the given flags. *)
Definition setFlags (source fl : value) (msgs : list message) : list message :=
  map (fun m => if selects source m
                then {| seqno := seqno m; uid := uid m; flags := flag_list fl |}
                else m) msgs.

End Store.

(** A resolution for numeric sources: an identifier, or an array of them,
    names messages by UID. *)
Definition selectsUid (source : value) (m : message) : bool :=
  match source with
  | VNum n => (Z.of_N (uid m) =? n)%Z
  | VArr items =>
      existsb (fun x => match x with
                        | VNum n => (Z.of_N (uid m) =? n)%Z
                        | _ => false
                        end) items
  | _ => false
  end.

End Tracker.

(** ** Wire text *)

Module Wire.

Definition dquote : ascii := "034"%char.
Definition backslash : ascii := "092"%char.
Definition space : ascii := " "%char.
Definition CRLF : string := String "013"%char (String "010"%char "").

Definition printN (n : N) : string := NilZero.string_of_uint (N.to_uint n).

Definition parseN (s : string) : option N :=
  option_map N.of_uint (NilZero.uint_of_string s).

Definition printZ (n : Z) : string := NilZero.string_of_int (Z.to_int n).

Fixpoint join (sep : string) (l : list string) : string :=
  match l with
  | [] => ""
  | [s] => s
  | s :: r => s ++ sep ++ join sep r
  end.

(** The fields of [s] between occurrences of [sep]; a string without
    [sep] is its own single field. *)
Fixpoint split (sep : ascii) (s : string) : list string :=
  match s with
  | EmptyString => [""]
  | String c r =>
      if Ascii.eqb c sep then "" :: split sep r
      else match split sep r with
           | [] => [String c ""]
           | t :: ts => String c t :: ts
           end
  end.

Fixpoint traverse {A B : Type} (f : A -> option B) (l : list A) : option (list B) :=
  match l with
  | [] => Some []
  | a :: r =>
      match f a, traverse f r with
      | Some b, Some bs => Some (b :: bs)
      | _, _ => None
      end
  end.


End Wire.

(** ** The command pipeline *)

Module Pipeline.

Record PendingCommand : Type := Pending {
  tag : N;
  text : string
}.

(** Modelled from the spec: the state of the Command Pipeline (4.2, 5): the
    tag counter, the commands outstanding in submission order, and the tags
    of cancelled commands whose response may still arrive. *)
Record pipeline : Type := PipelineState {
  counter : N;
  pending : list PendingCommand;
  cancelled : list N
}.

Definition empty : pipeline :=
  {| counter := 0; pending := []; cancelled := [] |}.

(** The tag as it goes on the wire. *)
Definition tag_text (t : N) : string := String "A"%char (Wire.printN t).

Inductive status : Type := OK | NO | BAD.

Inductive outcome : Type :=
| Result (text : string)
| ServerError (text : string)
| CancelledError.

Inductive error : Type := ProtocolError.

(** Modelled from the spec: [send] takes the next tag of the counter and
    queues the command behind those outstanding. *)
Definition send (cmd : string) (p : pipeline) : N * pipeline :=
  (counter p,
   {| counter := counter p + 1;
      pending := pending p ++ [ {| tag := counter p; text := cmd |} ];
      cancelled := cancelled p |}).

Definition lookup (t : N) (cmds : list PendingCommand) : option PendingCommand :=
  find (fun c => (tag c =? t)%N) cmds.

Definition without (t : N) (cmds : list PendingCommand) : list PendingCommand :=
  filter (fun c => negb (tag c =? t)%N) cmds.

Definition complete (st : status) (txt : string) : outcome :=
  match st with
  | OK => Result txt
  | NO => ServerError txt
  | BAD => ServerError txt
  end.

(** Modelled from the spec: a tagged completion resolves the outstanding
    command of that tag; the late response to a cancelled command is
    dropped; a response for any other tag is a protocol error. *)
Definition onTaggedResponse (t : N) (st : status) (txt : string) (p : pipeline)
  : error + (pipeline * option (PendingCommand * outcome)) :=
  match lookup t (pending p) with
  | Some c =>
      inr ({| counter := counter p;
              pending := without t (pending p);
              cancelled := cancelled p |},
           Some (c, complete st txt))
  | None =>
      if existsb (N.eqb t) (cancelled p)
      then inr ({| counter := counter p;
                   pending := pending p;
                   cancelled := filter (fun t' => negb (t' =? t)%N) (cancelled p) |},
                None)
      else inl ProtocolError
  end.

(** Modelled from the spec: [cancel] takes the command out of the queue and
    resolves it with a CancelledError; its tag is remembered for the late
    response. *)
Definition cancel (t : N) (p : pipeline)
  : pipeline * option (PendingCommand * outcome) :=
  match lookup t (pending p) with
  | Some c =>
      ({| counter := counter p;
          pending := without t (pending p);
          cancelled := t :: cancelled p |},
       Some (c, CancelledError))
  | None => (p, None)
  end.

(** The calls made on a pipeline. *)
Inductive call : Type :=
| Send (cmd : string)
| Response (t : N) (st : status) (txt : string)
| Cancel (t : N).

Definition step (p : pipeline) (c : call) : error + pipeline :=
  match c with
  | Send cmd => inr (snd (send cmd p))
  | Response t st txt =>
      match onTaggedResponse t st txt p with
      | inr (p', _) => inr p'
      | inl e => inl e
      end
  | Cancel t => inr (fst (cancel t p))
  end.

(** A run of calls from a state; a protocol error ends it. *)
Fixpoint run (p : pipeline) (cs : list call) : error + pipeline :=
  match cs with
  | [] => inr p
  | c :: r =>
      match step p c with
      | inr p' => run p' r
      | inl e => inl e
      end
  end.

Definition tags (p : pipeline) : list N := map tag (pending p).

(** The outstanding tags are pairwise distinct and below the counter. *)
Definition inv (p : pipeline) : Prop :=
  NoDup (tags p) /\ Forall (fun t => (t < counter p)%N) (tags p).

End Pipeline.

(** ** Search keys on the wire *)

Module SearchKey.

(** What stands between the spaces of a command: an atom, sent as it is, or
    a string, sent quoted or as a literal. *)
Inductive token : Type :=
| Atom (s : string)
| Text (s : string).

(** A search key: a keyword with its arguments, the NOT of a key, or the OR
    of two keys. *)
Inductive key : Type :=
| Key (name : string) (args : list token)
| Not (k : key)
| Or (a b : key).

Fixpoint keyTokens (k : key) : list token :=
  match k with
  | Key name args => Atom name :: args
  | Not k => Atom "NOT" :: keyTokens k
  | Or a b => Atom "OR" :: keyTokens a ++ keyTokens b
  end.


(** An atom can be told from a string and from its neighbours: it is not
    empty, has no space, and opens neither a quoted string nor a literal. *)
Definition atom_ok (s : string) : bool :=
  match s with
  | EmptyString => false
  | String c _ =>
      negb (Ascii.eqb c Wire.dquote) && negb (Ascii.eqb c "{"%char) &&
      forallb (fun x => negb (Ascii.eqb x Wire.space)) (list_ascii_of_string s)
  end.

Definition token_ok (t : token) : bool :=
  match t with
  | Atom s => atom_ok s
  | Text _ => true
  end.

Fixpoint atoms_ok (k : key) : bool :=
  match k with
  | Key _ args => forallb token_ok args
  | Not k => atoms_ok k
  | Or a b => atoms_ok a && atoms_ok b
  end.

Section Meaning.
(** The messages of a mailbox and what a keyword with its arguments says
    of a message are the server's. *)
Variable message : Type.
Variable holds : string -> list token -> message -> bool.

(** Modelled from the spec: the wire format (RFC 3501, which 6 names)
    reads NOT as negation, OR as disjunction, and a sequence of keys as
    their conjunction. *)
Fixpoint matches (k : key) (m : message) : bool :=
  match k with
  | Key name args => holds name args m
  | Not k => negb (matches k m)
  | Or a b => matches a m || matches b m
  end.

Definition selects (keys : list key) (m : message) : bool :=
  forallb (fun k => matches k m) keys.

End Meaning.

End SearchKey.

(** ** The criteria compiler *)

Module Compiler.
Import ImapTypes.
Import SearchKey.

Inductive error : Type := ValidationError.

(** A control character: below the space, or DEL. *)
Definition is_control (c : ascii) : bool :=
  let n := nat_of_ascii c in (n <? 32)%nat || (n =? 127)%nat.

Definition needs_literal (threshold : nat) (s : string) : bool :=
  (threshold <? String.length s)%nat || existsb is_control (list_ascii_of_string s).

(** Inside a quoted string the double quote and the backslash are escaped. *)
Fixpoint escape (s : string) : string :=
  match s with
  | EmptyString => EmptyString
  | String c r =>
      if Ascii.eqb c Wire.dquote || Ascii.eqb c Wire.backslash
      then String Wire.backslash (String c (escape r))
      else String c (escape r)
  end.

Definition quoted (s : string) : string :=
  String Wire.dquote (escape s ++ String Wire.dquote "").

Definition literal (s : string) : string :=
  "{" ++ Wire.printN (N.of_nat (String.length s)) ++ "}" ++ Wire.CRLF ++ s.

(** A '!'-prefixed keyword is the NOT of the keyword. *)
Definition keyword (k : string) (args : list token) : key :=
  match k with
  | EmptyString => Key k args
  | String c r => if Ascii.eqb c "!"%char then Not (Key r args) else Key k args
  end.

(** HEADER with its two arguments, the field name and the text. *)
Definition header : ty := TTuple [TLit "HEADER"; TString; TString].

Definition scalar_text (x : value) : string :=
  match x with
  | VNum n => Wire.printZ n
  | VStr s => s
  | _ => ""
  end.

Section Dialect.
(** The length above which a string argument is sent as a literal, and the
    rendering of a [Date] in the IMAP date format dd-Mon-yyyy. *)
Variable threshold : nat.
Variable imapDate : Z -> string.

Definition astring (s : string) : string :=
  if needs_literal threshold s then literal s else quoted s.

Definition renderToken (t : token) : string :=
  match t with
  | Atom s => s
  | Text s => astring s
  end.

Definition render (toks : list token) : string :=
  Wire.join " " (map renderToken toks).

(** Modelled from the spec: the search key of one criterion other than OR
    (4.4).  The keyword-headed criteria are told apart by the declared
    alternative the value inhabits, HEADER by its two arguments; string
    arguments are strings on the wire, dates and numbers atoms, extension
    arguments go through as strings; any other array is a UID list if its
    elements are UIDs, and no criterion if not. *)
Definition simpleKey (v : value) : option key :=
  if inhabits SearchTermNoParam v then
    match v with
    | VStr k => Some (keyword k [])
    | _ => None
    end
  else if inhabits SearchTermStringParam v then
    match v with
    | VArr [VStr k; VStr s] => Some (keyword k [Text s])
    | _ => None
    end
  else if inhabits header v then
    match v with
    | VArr [_; VStr name; VStr val] => Some (Key "HEADER" [Text name; Text val])
    | _ => None
    end
  else if inhabits SearchTermDateParam v then
    match v with
    | VArr [VStr k; VStr s] => Some (keyword k [Atom s])
    | VArr [VStr k; VDate ms] => Some (keyword k [Atom (imapDate ms)])
    | _ => None
    end
  else if inhabits SearchTermIntParam v then
    match v with
    | VArr [VStr k; VNum n] => Some (keyword k [Atom (Wire.printZ n)])
    | _ => None
    end
  else if inhabits Gmail.GmailSearchTerm v then
    match v with
    | VArr [VStr k; VStr s] => Some (Key k [Text s])
    | _ => None
    end
  else
    match v with
    | VArr items =>
        if forallb SearchCriterion.uid_item items
        then Some (Key "UID" [Atom (Wire.join "," (map scalar_text items))])
        else None
    | _ => None
    end.

(** Modelled from the spec: a criterion is the binary OR of two criteria,
    or a criterion as above. *)
Definition orKey (v : value) : option key :=
  match v with
  | VArr [o; a; b] =>
      if inhabits (TLit "OR") o then
        match simpleKey a, simpleKey b with
        | Some x, Some y => Some (Or x y)
        | _, _ => None
        end
      else simpleKey v
  | _ => simpleKey v
  end.

(** A key is sent only if what it sends as atoms (dates, numbers, UIDs) are
    atoms of the wire syntax. *)
Definition termKey (v : value) : option key :=
  match orKey v with
  | Some k => if atoms_ok k then Some k else None
  | None => None
  end.

Definition compileTerm (v : value) : option string :=
  option_map (fun k => render (keyTokens k)) (termKey v).

(** Modelled from the spec: the criteria of a search, compiled in order and
    joined by spaces; an empty sequence, or one with a value that is no
    criterion, is rejected. *)
Definition compileCriteria (criteria : list value) : error + string :=
  match criteria with
  | [] => inl ValidationError
  | _ =>
      match Wire.traverse termKey criteria with
      | Some keys => inr (render (flat_map keyTokens keys))
      | None => inl ValidationError
      end
  end.


End Dialect.



End Compiler.

(** ** The server's reading of a search *)

Module Server.
Import SearchKey.

(** The reader of a command's text, one character at a time: between
    tokens, inside an atom, inside a quoted string (after a backslash or
    not), after a closed string, inside the byte count of a literal, at the
    line break after the count, and inside the literal with the number of
    characters still to take. *)
Inductive mode : Type :=
| Between
| InAtom (acc : string)
| InQuoted (acc : string)
| Escaped (acc : string)
| AfterText (t : string)
| InCount (digits : string)
| ExpectCR (n : nat)
| ExpectLF (n : nat)
| InLiteral (n : nat) (acc : string).

Definition snoc (s : string) (c : ascii) : string := s ++ String c "".

(** Modelled from the spec: the wire syntax of 6: tokens are separated by
    single spaces; a quoted string runs to its closing quote, a backslash
    taking the next character as it is; a literal announces its length in
    braces and is that many characters after the line break. *)
Fixpoint lex (m : mode) (s : string) : option (list token) :=
  match s with
  | EmptyString =>
      match m with
      | InAtom acc => Some [Atom acc]
      | AfterText t => Some [Text t]
      | InLiteral 0 acc => Some [Text acc]
      | _ => None
      end
  | String c r =>
      match m with
      | Between =>
          if Ascii.eqb c Wire.dquote then lex (InQuoted "") r
          else if Ascii.eqb c "{"%char then lex (InCount "") r
          else if Ascii.eqb c Wire.space then None
          else lex (InAtom (String c "")) r
      | InAtom acc =>
          if Ascii.eqb c Wire.space
          then option_map (cons (Atom acc)) (lex Between r)
          else lex (InAtom (snoc acc c)) r
      | InQuoted acc =>
          if Ascii.eqb c Wire.dquote then lex (AfterText acc) r
          else if Ascii.eqb c Wire.backslash then lex (Escaped acc) r
          else lex (InQuoted (snoc acc c)) r
      | Escaped acc => lex (InQuoted (snoc acc c)) r
      | AfterText t =>
          if Ascii.eqb c Wire.space
          then option_map (cons (Text t)) (lex Between r)
          else None
      | InCount digits =>
          if Ascii.eqb c "}"%char
          then match Wire.parseN digits with
               | Some n => lex (ExpectCR (N.to_nat n)) r
               | None => None
               end
          else lex (InCount (snoc digits c)) r
      | ExpectCR n =>
          if Ascii.eqb c "013"%char then lex (ExpectLF n) r else None
      | ExpectLF n =>
          if Ascii.eqb c "010"%char then lex (InLiteral n "") r else None
      | InLiteral 0 acc =>
          if Ascii.eqb c Wire.space
          then option_map (cons (Text acc)) (lex Between r)
          else None
      | InLiteral (S n) acc => lex (InLiteral n (snoc acc c)) r
      end
  end.



(** The number of arguments of each keyword of the search command. *)
Definition arity (name : string) : option nat :=
  if existsb (String.eqb name) SearchCriterion.flag_keys then Some 0
  else if existsb (String.eqb name) SearchCriterion.string_keys then Some 1
  else if String.eqb name "HEADER" then Some 2
  else if existsb (String.eqb name) SearchCriterion.date_keys then Some 1
  else if existsb (String.eqb name) SearchCriterion.int_keys then Some 1
  else if existsb (String.eqb name) SearchCriterion.gmail_keys then Some 1
  else if String.eqb name "UID" then Some 1
  else None.



(** One key off the front of the tokens, and the tokens after it. *)
Fixpoint parseKey (fuel : nat) (toks : list token) : option (key * list token) :=
  match fuel with
  | 0 => None
  | S fuel =>
      match toks with
      | Atom name :: rest =>
          if String.eqb name "NOT" then
            match parseKey fuel rest with
            | Some (k, rest') => Some (Not k, rest')
            | None => None
            end
          else if String.eqb name "OR" then
            match parseKey fuel rest with
            | Some (a, rest') =>
                match parseKey fuel rest' with
                | Some (b, rest'') => Some (Or a b, rest'')
                | None => None
                end
            | None => None
            end
          else
            match arity name with
            | Some n =>
                if (n <=? List.length rest)%nat
                then Some (Key name (firstn n rest), skipn n rest)
                else None
            | None => None
            end
      | _ => None
      end
  end.

Fixpoint parseKeys (fuel : nat) (toks : list token) : option (list key) :=
  match fuel with
  | 0 => None
  | S fuel =>
      match toks with
      | [] => Some []
      | _ =>
          match parseKey (S fuel) toks with
          | Some (k, rest) =>
              match parseKeys fuel rest with
              | Some ks => Some (k :: ks)
              | None => None
              end
          | None => None
          end
      end
  end.

(** The keys of a search, read off its text. *)
Definition read (text : string) : option (list key) :=
  match lex Between text with
  | Some toks => parseKeys (S (List.length toks)) toks
  | None => None
  end.

Section Mailbox.
Variable message : Type.
Variable uid_of : message -> N.
Variable holds : string -> list token -> message -> bool.


End Mailbox.

End Server.

(** ** A search, end to end *)

Module Client.



End Client.

(** ** The event dispatcher *)

Module Dispatcher.

(** An observer: the event it is registered for, the method it was
    registered with, and its identity. *)
Record observer : Type := Observer {
  event : string;
  how : Imap.method;
  id : nat
}.

(** A registration is well-typed when [IConnection] declares the method for
    the event. *)
Definition declared (o : observer) : bool :=
  existsb (String.eqb (event o)) (Imap.IConnection_events (how o)).

Definition listens (ev : string) (o : observer) : bool := String.eqb (event o) ev.

Definition one_shot (o : observer) : bool :=
  match how o with Imap.once => true | Imap.on => false end.

(** Modelled from the spec: dispatching an event calls the observers
    registered for it, in registration order (4.5); as with an event
    emitter, an observer registered with [once] is removed when it is
    called and one registered with [on] stays. *)
Definition emit (ev : string) (obs : list observer) : list nat * list observer :=
  (map id (filter (listens ev) obs),
   filter (fun o => negb (listens ev o && one_shot o)) obs).

(** The calls made, in order, while a sequence of events is dispatched. *)
Fixpoint dispatch (evs : list string) (obs : list observer) : list nat :=
  match evs with
  | [] => []
  | ev :: r => fst (emit ev obs) ++ dispatch r (snd (emit ev obs))
  end.

Definition fired (i : nat) (calls : list nat) : nat := count_occ Nat.eq_dec calls i.


(** Three observers of a session: one for 'close', one for 'error', one for
    'mail', each registered with the method declared for its event. *)
Definition sample_observers : list observer :=
  [ {| event := "close"; how := Imap.on; id := 0 |};
    {| event := "error"; how := Imap.once; id := 1 |};
    {| event := "mail"; how := Imap.on; id := 2 |} ].

End Dispatcher.

(** A date term whose argument is a [Date] object. *)
Definition dated : ty :=
  TTuple [ lits (with_negations SearchCriterion.date_keys); TDate ].

(** * Properties *)

(** ** The models on sample values *)

Example sample_terms_are_SearchTerms :
  forallb (inhabits ImapTypes.SearchTerm)
    [ VStr "UNSEEN";
      VArr [VStr "FROM"; VStr "a@b.com"];
      VArr [VStr "HEADER"; VStr "!HEADER"; VStr "Subject"; VStr "hello"];
      VArr [VStr "!SINCE"; VDate 0];
      VArr [VStr "LARGER"; VNum 1024];
      VArr [VNum 101; VStr "200:*"];
      VArr [VStr "OR"; VStr "SEEN"; VArr [VStr "FROM"; VStr "a@b.com"]] ] = true.
Proof. reflexivity. Qed.

Example sample_values_are_not_SearchTerms :
  map (inhabits ImapTypes.SearchTerm)
    [ VStr "UNREAD";
      VNum 5;
      VArr [VStr "SINCE"; VDate 0; VDate 1];
      VArr [VStr "OR"; VArr [VStr "FROM"; VStr "a@b.com"]];
      VArr [VStr "OR"; VStr "SEEN"; VArr [VStr "LARGER"; VNull]] ]
  = [false; false; false; false; false].
Proof. reflexivity. Qed.

Example MessageSource_samples :
  map (inhabits ImapTypes.MessageSource)
    [ VNum 2504; VStr "2504:2507"; VStr "*"; VArr [VNum 1; VStr "5:*"]; VNull ]
  = [true; true; true; true; false].
Proof. reflexivity. Qed.

Example compile_sample :
  Compiler.compileCriteria 1024 (fun _ => "1-Jan-1970")
    [ VStr "!DELETED";
      VArr [VStr "SINCE"; VDate 0];
      VArr [VStr "OR"; VStr "SEEN"; VArr [VStr "LARGER"; VNum 1024]];
      VArr [VNum 101; VNum 102] ]
  = inr "NOT DELETED SINCE 1-Jan-1970 OR SEEN LARGER 1024 UID 101,102".
Proof. reflexivity. Qed.

Example compile_rejects_empty :
  Compiler.compileCriteria 1024 (fun _ => "1-Jan-1970") []
  = inl Compiler.ValidationError.
Proof. reflexivity. Qed.

Example compile_each_shape :
  map (fun c => Compiler.compileCriteria 1024 (fun _ => "1-Jan-1970") [c])
    [ VStr "UNSEEN";
      VArr [VStr "SUBJECT"; VStr "hello world"];
      VArr [VStr "HEADER"; VStr "Message-ID"; VStr "<1@x>"];
      VArr [VStr "SINCE"; VStr "1-Feb-2020"];
      VArr [VStr "BEFORE"; VDate 0];
      VArr [VStr "LARGER"; VNum 1024];
      VArr [VNum 101; VStr "200:*"];
      VArr [VStr "X-GM-RAW"; VStr "has:attachment"];
      VArr [VStr "!FROM"; VStr "a@b.com"];
      VArr [VStr "OR"; VStr "SEEN"; VArr [VStr "!LARGER"; VNum 5]] ]
  = [ inr "UNSEEN";
      inr ("SUBJECT " ++ Compiler.quoted "hello world");
      inr ("HEADER " ++ Compiler.quoted "Message-ID" ++ " " ++ Compiler.quoted "<1@x>");
      inr "SINCE 1-Feb-2020";
      inr "BEFORE 1-Jan-1970";
      inr "LARGER 1024";
      inr "UID 101,200:*";
      inr ("X-GM-RAW " ++ Compiler.quoted "has:attachment");
      inr ("NOT FROM " ++ Compiler.quoted "a@b.com");
      inr "OR SEEN NOT LARGER 5" ].
Proof. reflexivity. Qed.

Example compile_rejects_what_is_no_criterion :
  map (fun c => Compiler.compileCriteria 1024 (fun _ => "1-Jan-1970") [c])
    [ VArr [VStr "FORM"; VStr "a@b.com"];
      VArr [VStr "HEADER"; VStr "!HEADER"; VStr "Subject"; VStr "hello"];
      VArr [VStr "SINCE"; VStr "last week"];
      VArr [];
      VArr [VStr "OR"; VStr "SEEN"; VArr [VStr "OR"; VStr "NEW"; VStr "OLD"]] ]
  = [ inl Compiler.ValidationError; inl Compiler.ValidationError;
      inl Compiler.ValidationError; inl Compiler.ValidationError;
      inl Compiler.ValidationError ].
Proof. reflexivity. Qed.

Example server_reads_sample :
  Server.read "NOT DELETED OR SEEN LARGER 1024 UID 101,102"
  = Some [ SearchKey.Not (SearchKey.Key "DELETED" []);
           SearchKey.Or (SearchKey.Key "SEEN" [])
                        (SearchKey.Key "LARGER" [SearchKey.Atom "1024"]);
           SearchKey.Key "UID" [SearchKey.Atom "101,102"] ].
Proof. reflexivity. Qed.

Example server_reads_a_literal :
  Server.read ("FROM {7}" ++ Wire.CRLF ++ "a@b.com UNSEEN")
  = Some [ SearchKey.Key "FROM" [SearchKey.Text "a@b.com"];
           SearchKey.Key "UNSEEN" [] ].
Proof. reflexivity. Qed.

Example weak_type_sample :
  map (has_members Imap.IFetchOptions)
    [ VObj []; VObj [("markSeen", VBool true)]; VObj [("foo", VNum 1)];
      VObj [("markSeen", VBool true); ("foo", VNum 1)] ]
  = [true; true; false; true].
Proof. reflexivity. Qed.

Example literal_sample :
  Compiler.astring 4 "a@b.com" = "{7}" ++ Wire.CRLF ++ "a@b.com".
Proof. reflexivity. Qed.

Example dispatch_sample :
  Dispatcher.dispatch ["mail"; "error"; "mail"; "error"; "close"]
                      Dispatcher.sample_observers
  = [2; 1; 2; 0].
Proof. reflexivity. Qed.

Example unknown_tag_is_fatal :
  Pipeline.run Pipeline.empty
    [ Pipeline.Send "NOOP"; Pipeline.Response 7 Pipeline.OK "done" ]
  = inl Pipeline.ProtocolError.
Proof. reflexivity. Qed.

Example late_response_is_dropped :
  Pipeline.run Pipeline.empty
    [ Pipeline.Send "NOOP"; Pipeline.Cancel 0; Pipeline.Response 0 Pipeline.OK "done" ]
  = inr {| Pipeline.counter := 1; Pipeline.pending := []; Pipeline.cancelled := [] |}.
Proof. reflexivity. Qed.

Example expunge_sample :
  Tracker.cache
    (fst (Tracker.applyUntagged (Tracker.EXPUNGE 2)
            {| Tracker.session := Tracker.selected;
               Tracker.box := {| Tracker.total := 4; Tracker.recent := 0;
                                 Tracker.uidvalidity := 1 |};
               Tracker.cache :=
                 [ {| Tracker.seqno := 1; Tracker.uid := 101; Tracker.flags := [] |};
                   {| Tracker.seqno := 3; Tracker.uid := 105; Tracker.flags := [] |};
                   {| Tracker.seqno := 4; Tracker.uid := 109; Tracker.flags := [] |} ] |}))
  = [ {| Tracker.seqno := 1; Tracker.uid := 101; Tracker.flags := [] |};
      {| Tracker.seqno := 2; Tracker.uid := 105; Tracker.flags := [] |};
      {| Tracker.seqno := 3; Tracker.uid := 109; Tracker.flags := [] |} ].
Proof. reflexivity. Qed.

Example setFlags_sample :
  Tracker.setFlags Tracker.selectsUid (VArr [VNum 101; VNum 109]) (VStr "\Seen")
    [ {| Tracker.seqno := 1; Tracker.uid := 101; Tracker.flags := ["\Draft"] |};
      {| Tracker.seqno := 2; Tracker.uid := 105; Tracker.flags := [] |};
      {| Tracker.seqno := 3; Tracker.uid := 109; Tracker.flags := ["\Flagged"; "\Seen"] |} ]
  = [ {| Tracker.seqno := 1; Tracker.uid := 101; Tracker.flags := ["\Seen"] |};
      {| Tracker.seqno := 2; Tracker.uid := 105; Tracker.flags := [] |};
      {| Tracker.seqno := 3; Tracker.uid := 109; Tracker.flags := ["\Seen"] |} ].
Proof. reflexivity. Qed.

(** * Properties of the declared types *)

(** ** The meaning of the type formers *)

Lemma inhabits_lits (keys : list string) (v : value) :
  inhabits (lits keys) v = true <-> exists k, v = VStr k /\ In k keys.
Proof.
  unfold lits; cbn [inhabits]. rewrite existsb_exists. split.
  - intros [t [Hin Ht]]. apply in_map_iff in Hin as [k [<- Hk]].
    destruct v; cbn in Ht; try discriminate.
    apply String.eqb_eq in Ht. subst. eauto.
  - intros [k [-> Hk]]. exists (TLit k). split.
    + now apply in_map.
    + cbn. apply String.eqb_refl.
Qed.

Lemma inhabits_pair (a b : ty) (v : value) :
  inhabits (TTuple [a; b]) v = true <->
  exists x y, v = VArr [x; y] /\ inhabits a x = true /\ inhabits b y = true.
Proof.
  split.
  - destruct v as [| | | | | |items|]; cbn; try discriminate.
    destruct items as [|x [|y [|z r]]]; cbn; try discriminate;
      rewrite ?andb_false_r; try discriminate.
    rewrite andb_true_r. intros H. apply andb_true_iff in H. eauto.
  - intros (x & y & -> & Hx & Hy). cbn. now rewrite Hx, Hy.
Qed.

Lemma inhabits_array (e : ty) (v : value) :
  inhabits (TArray e) v = true <->
  exists items, v = VArr items /\ Forall (fun x => inhabits e x = true) items.
Proof.
  split.
  - destruct v as [| | | | | |items|]; cbn; try discriminate.
    intros H. exists items. split; [reflexivity|].
    now apply Forall_forall, forallb_forall.
  - intros (items & -> & H). cbn. apply forallb_forall. now apply Forall_forall.
Qed.

Import ImapTypes.

Lemma inhabits_union (alts : list ty) (v : value) :
  inhabits (TUnion alts) v = existsb (fun a => inhabits a v) alts.
Proof. reflexivity. Qed.

Lemma OR_headed_SearchTerm (items : list value) :
  inhabits _SearchTerm (VArr (VStr "OR" :: items)) = forallb scalar items.
Proof. cbn. now rewrite orb_false_r. Qed.

Lemma OR_headed_GSearchTerm (items : list value) :
  inhabits Gmail._GSearchTerm (VArr (VStr "OR" :: items)) = forallb scalar items.
Proof. 
  cbn. rewrite !orb_false_r. destruct items as [|x [|y [|z r]]]; cbn; rewrite ?orb_false_r, ?andb_false_r, ?orb_false_r; try reflexivity.
Qed.

Lemma inhabits_triple (a b c : ty) (v : value) :
  inhabits (TTuple [a; b; c]) v = true <->
  exists x y z, v = VArr [x; y; z] /\
                inhabits a x = true /\ inhabits b y = true /\ inhabits c z = true.
Proof.
  split.
  - destruct v as [| | | | | |items|]; cbn; try discriminate.
    destruct items as [|x [|y [|z [|w r]]]]; cbn; try discriminate;
      rewrite ?andb_false_r; try discriminate.
    rewrite andb_true_r. intros H.
    apply andb_true_iff in H as [Hx H]. apply andb_true_iff in H as [Hy Hz].
    exists x, y, z. auto.
  - intros (x & y & z & -> & Hx & Hy & Hz). cbn. now rewrite Hx, Hy, Hz.
Qed.

Lemma inhabits_TLit (s : string) (v : value) :
  inhabits (TLit s) v = true <-> v = VStr s.
Proof.
  destruct v; cbn; try (split; [discriminate|intros H; discriminate H]).
  rewrite String.eqb_eq. split; [now intros ->|now intros [= ->]].
Qed.

Lemma tuple3_eval (a b c : ty) (x y z : value) :
  inhabits (TTuple [a; b; c]) (VArr [x; y; z])
  = inhabits a x && (inhabits b y && inhabits c z).
Proof. cbn. now rewrite andb_true_r. Qed.

Section OrCombinator.
Variable T : ty.

Lemma inhabits_OR_alternative (v : value) :
  inhabits (TUnion [T; TTuple [TLit "OR"; T; T]]) v = true <->
  inhabits T v = true \/
  exists a b, v = VArr [VStr "OR"; a; b] /\
              inhabits T a = true /\ inhabits T b = true.
Proof.
  rewrite inhabits_union. cbn [existsb]. rewrite orb_false_r, orb_true_iff.
  rewrite inhabits_triple. split; (intros [H|H]; [now left|right]).
  - destruct H as (x & a & b & -> & Hx & Ha & Hb).
    apply inhabits_TLit in Hx as ->. eauto.
  - destruct H as (a & b & -> & Ha & Hb).
    exists (VStr "OR"), a, b. cbn [inhabits]. rewrite String.eqb_refl. auto.
Qed.
End OrCombinator.

(** ** The OR combinator *)

(** C9, as amended.  In both grammars the OR alternative is one level deep:
    a term is a [_SearchTerm] (resp. [_GSearchTerm]) or the triple
    ['OR', a, b] of two of them.  No keyword-headed alternative has the
    keyword 'OR', so an array headed by 'OR' is a [_SearchTerm] exactly
    when it is a [SearchTermUID], that is when all of its remaining
    elements are numbers or strings.  Hence ['OR', ['OR', ...items], c] is
    well-typed exactly when the inner items are numbers or strings and [c]
    is a [_SearchTerm]: a nested OR over parameterised operands is not
    expressible, one over bare keywords is. *)
Theorem OR_is_not_recursive :
  (forall v, inhabits SearchTerm v = true <->
             inhabits _SearchTerm v = true \/
             exists a b, v = VArr [VStr "OR"; a; b] /\
                         inhabits _SearchTerm a = true /\ inhabits _SearchTerm b = true) /\
  (forall v, inhabits Gmail.GSearchTerm v = true <->
             inhabits Gmail._GSearchTerm v = true \/
             exists a b, v = VArr [VStr "OR"; a; b] /\
                         inhabits Gmail._GSearchTerm a = true /\
                         inhabits Gmail._GSearchTerm b = true) /\
  (forall items, inhabits _SearchTerm (VArr (VStr "OR" :: items)) = forallb scalar items) /\
  (forall items, inhabits Gmail._GSearchTerm (VArr (VStr "OR" :: items)) = forallb scalar items) /\
  (forall items c,
      inhabits SearchTerm (VArr [VStr "OR"; VArr (VStr "OR" :: items); c])
      = forallb scalar items && inhabits _SearchTerm c) /\
  (forall items c,
      inhabits Gmail.GSearchTerm (VArr [VStr "OR"; VArr (VStr "OR" :: items); c])
      = forallb scalar items && inhabits Gmail._GSearchTerm c).
Proof.
  split; [exact (inhabits_OR_alternative _SearchTerm)|].
  split; [exact (inhabits_OR_alternative Gmail._GSearchTerm)|].
  split; [exact OR_headed_SearchTerm|].
  split; [exact OR_headed_GSearchTerm|].
  split; intros items c.
  - change (inhabits SearchTerm ?v) with
      (inhabits _SearchTerm v || (inhabits (TTuple [TLit "OR"; _SearchTerm; _SearchTerm]) v || false)).
    rewrite OR_headed_SearchTerm, tuple3_eval, OR_headed_SearchTerm.
    cbn [forallb]. change (scalar (VArr (VStr "OR" :: items))) with false.
    change (inhabits (TLit "OR") (VStr "OR")) with true.
    cbn [andb orb]. now rewrite orb_false_r.
  - change (inhabits Gmail.GSearchTerm ?v) with
      (inhabits Gmail._GSearchTerm v ||
       (inhabits (TTuple [TLit "OR"; Gmail._GSearchTerm; Gmail._GSearchTerm]) v || false)).
    rewrite OR_headed_GSearchTerm, tuple3_eval, OR_headed_GSearchTerm.
    cbn [forallb]. change (scalar (VArr (VStr "OR" :: items))) with false.
    change (inhabits (TLit "OR") (VStr "OR")) with true.
    cbn [andb orb]. now rewrite orb_false_r.
Qed.

(** C9, counterexample.  The claim has the operands of a well-typed OR term
    be non-OR terms.  The term below is well-typed, and its first operand
    ['OR', 'SEEN', 'ALL'] is an OR term: it inhabits the OR alternative of
    [SearchTerm] (and is a [_SearchTerm] as an array of strings). *)
Lemma nested_OR_is_expressible :
  inhabits SearchTerm
    (VArr [VStr "OR"; VArr [VStr "OR"; VStr "SEEN"; VStr "ALL"]; VStr "UNSEEN"]) = true /\
  inhabits (TTuple [TLit "OR"; _SearchTerm; _SearchTerm])
    (VArr [VStr "OR"; VStr "SEEN"; VStr "ALL"]) = true /\
  inhabits Gmail.GSearchTerm
    (VArr [VStr "OR"; VArr [VStr "OR"; VStr "SEEN"; VStr "ALL"]; VStr "UNSEEN"]) = true.
Proof. repeat split; reflexivity. Qed.

Lemma nested_OR_over_parameterised_operand :
  inhabits SearchTerm
    (VArr [VStr "OR";
           VArr [VStr "OR"; VArr [VStr "FROM"; VStr "a@b.com"]; VStr "SEEN"];
           VStr "UNSEEN"]) = false.
Proof. reflexivity. Qed.

(** ** The HEADER term *)

Lemma inhabits_TString (v : value) :
  inhabits TString v = true <-> exists s, v = VStr s.
Proof.
  destruct v; cbn; split; try discriminate; try (intros [s H]; discriminate H); eauto.
Qed.

Lemma SearchTermStringParam2_shape (v : value) :
  inhabits SearchTermStringParam2 v = true <->
  exists name val, v = VArr [VStr "HEADER"; VStr "!HEADER"; VStr name; VStr val].
Proof.
  split.
  - destruct v as [| | | | | |items|]; cbn; try discriminate.
    destruct items as [|a [|b [|c [|d [|e r]]]]]; cbn;
      rewrite ?andb_false_r; try discriminate.
    rewrite andb_true_r. intros H.
    apply andb_true_iff in H as [Ha H]. apply andb_true_iff in H as [Hb H].
    apply andb_true_iff in H as [Hc Hd].
    apply (inhabits_TLit "HEADER") in Ha. apply (inhabits_TLit "!HEADER") in Hb.
    apply inhabits_TString in Hc as [name ->]. apply inhabits_TString in Hd as [val ->].
    subst. eauto.
  - intros (name & val & ->). reflexivity.
Qed.

Lemma negation_slot (keys : list string) (A : ty) :
  (forall k, In k keys -> In ("!" ++ k) keys \/ exists k', k = "!" ++ k' /\ In k' keys) ->
  negation_in_same_slot (TTuple [lits keys; A]).
Proof.
  intros Hk k arg H.
  apply inhabits_pair in H as (x & y & [= <- <-] & Hx & Hy).
  apply inhabits_lits in Hx as (k0 & [= <-] & Hin).
  destruct (Hk _ Hin) as [Hn | (k' & -> & Hn)]; [left | right; exists k'; split; [reflexivity|]];
    apply inhabits_pair; eexists _, _; (split; [reflexivity|]); (split; [|exact Hy]);
    apply inhabits_lits; eauto.
Qed.

(** C8, as amended.  [SearchTermStringParam2] admits exactly the four-element
    arrays ['HEADER', '!HEADER', name, value]: the negated keyword is a
    second fixed slot.  Neither ['HEADER', name, value] nor
    ['!HEADER', name, value] inhabits it, nor any other keyword-headed
    alternative of [SearchTerm], nor the OR alternative; both are admitted
    by [SearchTermUID], as arrays of strings, and no array headed by
    '!HEADER' inhabits [SearchTermStringParam2].  In the string, date and
    integer terms the negated keyword stands in the same slot as the
    positive one. *)
Theorem HEADER_term_shape :
  (forall v, inhabits SearchTermStringParam2 v = true <->
             exists name val,
               v = VArr [VStr "HEADER"; VStr "!HEADER"; VStr name; VStr val]) /\
  (forall name val,
      let pos := VArr [VStr "HEADER"; VStr name; VStr val] in
      let neg := VArr [VStr "!HEADER"; VStr name; VStr val] in
      (inhabits SearchTermStringParam2 pos = false /\
       inhabits SearchTermStringParam2 neg = false) /\
      (forall T, In T [SearchTermNoParam; SearchTermStringParam; SearchTermStringParam2;
                       SearchTermDateParam; SearchTermIntParam;
                       TTuple [TLit "OR"; _SearchTerm; _SearchTerm]] ->
                 inhabits T pos = false /\ inhabits T neg = false) /\
      (inhabits SearchTermUID pos = true /\ inhabits SearchTermUID neg = true) /\
      (inhabits SearchTerm pos = true /\ inhabits SearchTerm neg = true)) /\
  (forall items, inhabits SearchTermStringParam2 (VArr (VStr "!HEADER" :: items)) = false) /\
  (negation_in_same_slot SearchTermStringParam /\
   negation_in_same_slot SearchTermDateParam /\
   negation_in_same_slot SearchTermIntParam).
Proof.
  split; [exact SearchTermStringParam2_shape|]. split.
  - intros name val pos neg. subst pos neg.
    assert (Hpos : inhabits SearchTermStringParam2
                     (VArr [VStr "HEADER"; VStr name; VStr val]) = false)
      by (cbn; now rewrite !andb_false_r).
    split; [split; [exact Hpos|reflexivity]|].
    split; [|split; split; cbn; rewrite ?andb_false_r; reflexivity].
    intros T HT. cbn [In] in HT.
    repeat (destruct HT as [<-|HT]; [split; first [exact Hpos|reflexivity]|]).
    destruct HT.
  - split; [intros items; reflexivity|].
    repeat split; apply negation_slot; intros k Hin; cbn [In] in Hin;
      repeat (destruct Hin as [<-|Hin];
              [first [left; cbn; tauto
                     | right; eexists; split; [reflexivity|cbn; tauto]]|]);
      destruct Hin.
Qed.

(** C8, counterexample.  The claim has neither three-element header term
    inhabit [SearchTerm]; both do, through [SearchTermUID]. *)
Lemma HEADER_triple_inhabits_SearchTerm :
  inhabits SearchTerm (VArr [VStr "HEADER"; VStr "Subject"; VStr "hello"]) = true /\
  inhabits SearchTerm (VArr [VStr "!HEADER"; VStr "Subject"; VStr "hello"]) = true.
Proof. split; reflexivity. Qed.

(** ** The search grammar against the spec's variant *)

Module CriterionFacts.
Import SearchCriterion.



Lemma inhabits_date_argument (d : value) :
  inhabits (TUnion [TString; TDate]) d = true <-> date_argument d.
Proof.
  unfold date_argument.
  destruct d; cbn; split; try discriminate; eauto;
    intros [[s H]|[ms H]]; discriminate H.
Qed.

Lemma inhabits_TNumber (v : value) :
  inhabits TNumber v = true <-> exists n, v = VNum n.
Proof.
  destruct v; cbn; split; try discriminate; try (intros [? H]; discriminate H); eauto.
Qed.

Lemma SearchTermUID_shape (v : value) :
  inhabits SearchTermUID v = true <->
  exists items, v = VArr items /\ Forall (fun x => scalar x = true) items.
Proof. apply inhabits_array. Qed.



End CriterionFacts.

(** ** What the search grammar tells apart *)

Module GrammarFacts.

Lemma scalar_VStr (s : string) : scalar (VStr s) = true.
Proof. reflexivity. Qed.

Lemma scalar_VNum (n : Z) : scalar (VNum n) = true.
Proof. reflexivity. Qed.

Lemma keyed_string_is_UID (keys : ty) (v : value) :
  inhabits (TTuple [keys; TString]) v = true ->
  (forall x, inhabits keys x = true -> exists k, x = VStr k) ->
  inhabits SearchTermUID v = true.
Proof.
  intros H Hk. apply inhabits_pair in H as (x & y & -> & Hx & Hy).
  apply Hk in Hx as [k ->]. apply inhabits_TString in Hy as [s ->]. reflexivity.
Qed.

Lemma lits_are_strings (keys : list string) (x : value) :
  inhabits (lits keys) x = true -> exists k, x = VStr k.
Proof. intros H. apply inhabits_lits in H as (k & -> & _). eauto. Qed.

Lemma inhabits_lits_VStr (keys : list string) (k : string) :
  inhabits (lits keys) (VStr k) = true <-> In k keys.
Proof.
  rewrite inhabits_lits. split.
  - now intros (k' & [= <-] & H).
  - eauto.
Qed.

Lemma StringParam_is_UID (v : value) :
  inhabits SearchTermStringParam v = true -> inhabits SearchTermUID v = true.
Proof. intros H. apply (keyed_string_is_UID _ _ H), lits_are_strings. Qed.

Lemma GmailSearchTerm_is_UID (v : value) :
  inhabits Gmail.GmailSearchTerm v = true -> inhabits SearchTermUID v = true.
Proof. intros H. apply (keyed_string_is_UID _ _ H), lits_are_strings. Qed.

Lemma StringParam2_is_UID (v : value) :
  inhabits SearchTermStringParam2 v = true -> inhabits SearchTermUID v = true.
Proof.
  intros H. apply SearchTermStringParam2_shape in H as (name & val & ->). reflexivity.
Qed.

Lemma IntParam_is_UID (v : value) :
  inhabits SearchTermIntParam v = true -> inhabits SearchTermUID v = true.
Proof.
  intros H. apply inhabits_pair in H as (x & y & -> & Hx & Hy).
  apply lits_are_strings in Hx as [k ->].
  apply CriterionFacts.inhabits_TNumber in Hy as [n ->]. reflexivity.
Qed.

Lemma DateParam_split (v : value) :
  inhabits SearchTermDateParam v = true ->
  inhabits dated v = true \/ inhabits SearchTermUID v = true.
Proof.
  intros H. apply inhabits_pair in H as (x & y & -> & Hx & Hy).
  pose proof Hx as Hx'. apply lits_are_strings in Hx' as [k ->].
  apply CriterionFacts.inhabits_date_argument in Hy as [[s ->]|[ms ->]].
  - right. reflexivity.
  - left. unfold dated. apply inhabits_pair. eexists _, _. repeat split. exact Hx.
Qed.

Lemma dated_is_DateParam (v : value) :
  inhabits dated v = true -> inhabits SearchTermDateParam v = true.
Proof.
  intros H. apply inhabits_pair in H as (x & y & -> & Hx & Hy).
  apply inhabits_pair. eexists _, _. split; [reflexivity|]. split; [exact Hx|].
  destruct y; try discriminate Hy. reflexivity.
Qed.

Lemma bool_eq_iff (a b : bool) : (a = true <-> b = true) -> a = b.
Proof.
  destruct a, b; intros [H1 H2]; try reflexivity;
    [symmetry; now apply H1 | now apply H2].
Qed.

Lemma _SearchTerm_told_apart (v : value) :
  inhabits _SearchTerm v
  = inhabits SearchTermNoParam v || inhabits dated v || inhabits SearchTermUID v.
Proof.
  apply bool_eq_iff. unfold _SearchTerm. rewrite inhabits_union. cbn [existsb].
  rewrite !orb_false_r, !orb_true_iff. split.
  - intros [H|[H|[H|[H|[H|H]]]]]; auto using StringParam_is_UID, StringParam2_is_UID,
      IntParam_is_UID.
    apply DateParam_split in H as [H|H]; auto.
  - intros [[H|H]|H].
    + now left.
    + do 3 right. left. now apply dated_is_DateParam.
    + do 5 right. exact H.
Qed.

Lemma _GSearchTerm_same (v : value) :
  inhabits Gmail._GSearchTerm v = inhabits _SearchTerm v.
Proof.
  unfold Gmail._GSearchTerm. rewrite inhabits_union. cbn [existsb].
  rewrite orb_false_r.
  destruct (inhabits Gmail.GmailSearchTerm v) eqn:E; [|apply orb_false_r].
  rewrite orb_true_r. symmetry. rewrite _SearchTerm_told_apart.
  rewrite (GmailSearchTerm_is_UID _ E). apply orb_true_r.
Qed.

Section SameOperands.
Variables a b b' : ty.
Hypothesis same : forall x, inhabits b x = inhabits b' x.

Lemma triple_ext (v : value) :
  inhabits (TTuple [a; b; b]) v = inhabits (TTuple [a; b'; b']) v.
Proof.
  destruct v as [| | | | | |items|]; try reflexivity.
  destruct items as [|x [|y [|z [|w r]]]]; cbn [inhabits all2]; try reflexivity.
  - now rewrite same.
  - now rewrite !same.
  - now rewrite !same.
Qed.
End SameOperands.

Lemma forallb_pointwise {A : Type} (f g : A -> bool) (l : list A) :
  (forall x, f x = g x) -> forallb f l = forallb g l.
Proof.
  intros H. induction l as [|x r IH]; cbn; [reflexivity|]. now rewrite H, IH.
Qed.

Lemma SearchTerm_unfold (v : value) :
  inhabits SearchTerm v
  = inhabits _SearchTerm v || inhabits (TTuple [TLit "OR"; _SearchTerm; _SearchTerm]) v.
Proof.
  unfold SearchTerm. rewrite inhabits_union. cbn [existsb]. now rewrite orb_false_r.
Qed.

Lemma GSearchTerm_same (v : value) :
  inhabits Gmail.GSearchTerm v = inhabits SearchTerm v.
Proof.
  unfold Gmail.GSearchTerm, SearchTerm. rewrite !inhabits_union.
  cbn [existsb]. rewrite _GSearchTerm_same.
  now rewrite (triple_ext (TLit "OR") _ _ _GSearchTerm_same).
Qed.

Lemma UID_is_SearchTerm (v : value) :
  inhabits SearchTermUID v = true -> inhabits SearchTerm v = true.
Proof.
  intros H. rewrite SearchTerm_unfold, _SearchTerm_told_apart, H.
  now rewrite !orb_true_r.
Qed.

Lemma UID_is_MessageSource (v : value) :
  inhabits SearchTermUID v = true -> inhabits MessageSource v = true.
Proof.
  intros H. unfold MessageSource. rewrite inhabits_union. cbn [existsb].
  change (TArray (TUnion [TNumber; TString])) with SearchTermUID.
  rewrite H. now rewrite !orb_true_r.
Qed.

End GrammarFacts.

(** ** The connection state *)

Lemma IConnection_state_values (v : value) :
  inhabits Imap.IConnection_state v = true <->
  v = VStr "disconnected" \/ v = VStr "connected" \/ v = VStr "authenticated".
Proof.
  unfold Imap.IConnection_state. rewrite inhabits_lits. cbn [In]. split.
  - intros (k & -> & [<-|[<-|[<-|[]]]]); auto.
  - intros [->|[->| ->]]; eexists; (split; [reflexivity|]); auto.
Qed.

Lemma every_state_reachable (s : Tracker.state) :
  exists gs, Tracker.run Tracker.disconnected gs = s.
Proof.
  destruct s.
  - exists []. reflexivity.
  - exists [Tracker.transport_open]. reflexivity.
  - exists [Tracker.transport_open; Tracker.login_ok]. reflexivity.
  - exists [Tracker.transport_open; Tracker.login_ok; Tracker.openBox_ok]. reflexivity.
Qed.

(** C1, as amended.  The declared [state] field ranges over exactly the
    three literals disconnected, connected and authenticated.  The session
    state machine of the spec has four states, all reachable from
    disconnected: authenticated goes to selected on a successful openBox,
    selected back to authenticated on closeBox, and every state to
    disconnected on transport close or destroy; of the four, selected is
    the one the declared field cannot hold. *)
Theorem connection_state_range :
  (forall v, inhabits Imap.IConnection_state v = true <->
             v = VStr "disconnected" \/ v = VStr "connected" \/
             v = VStr "authenticated") /\
  (forall s, inhabits Imap.IConnection_state (VStr (Tracker.state_name s)) = true <->
             s <> Tracker.selected) /\
  (forall s, exists gs, Tracker.run Tracker.disconnected gs = s) /\
  Tracker.step Tracker.authenticated Tracker.openBox_ok = Tracker.selected /\
  Tracker.step Tracker.authenticated Tracker.openBox_failed = Tracker.authenticated /\
  Tracker.step Tracker.selected Tracker.closeBox = Tracker.authenticated /\
  (forall s, Tracker.step s Tracker.transport_close = Tracker.disconnected /\
             Tracker.step s Tracker.destroy = Tracker.disconnected).
Proof.
  split; [exact IConnection_state_values|].
  split; [intros []; cbn; split; congruence|].
  split; [exact every_state_reachable|].
  repeat split; destruct s; reflexivity.
Qed.

(** C1, counterexample.  The claim has the [state] field range over all
    four states; 'selected' is the name of one of them and is not a value
    of the declared type. *)
Lemma state_field_excludes_selected :
  Tracker.state_name Tracker.selected = "selected" /\
  inhabits Imap.IConnection_state (VStr "selected") = false.
Proof. split; reflexivity. Qed.

(** ** Message attributes of the Gmail extension *)

Lemma Gmail_attributes_shape (v : value) :
  inhabits (interface_type Gmail.IImapMessageAttributes) v = true <->
  exists props thrid msgid labels,
    v = VObj props /\
    getProp "x-gm-thrid" props = Some (VStr thrid) /\
    getProp "x-gm-msgid" props = Some (VStr msgid) /\
    getProp "x-gm-labels" props = Some (VArr labels) /\
    Forall (fun l => exists s, l = VStr s) labels.
Proof.
  split.
  - destruct v as [| | | | | | |props]; cbn; try discriminate.
    rewrite andb_true_r. intros H.
    apply andb_true_iff in H as [H1 H]. apply andb_true_iff in H as [H2 H3].
    destruct (getProp "x-gm-thrid" props) as [t|] eqn:E1; [|discriminate].
    destruct (getProp "x-gm-msgid" props) as [m|] eqn:E2; [|discriminate].
    destruct (getProp "x-gm-labels" props) as [l|] eqn:E3; [|discriminate].
    apply inhabits_TString in H1 as [thrid ->].
    apply inhabits_TString in H2 as [msgid ->].
    apply (inhabits_array TString) in H3 as (labels & -> & Hl).
    exists props, thrid, msgid, labels. repeat (split; [first [reflexivity|assumption]|]).
    revert Hl. apply Forall_impl. intros a. apply inhabits_TString.
  - intros (props & thrid & msgid & labels & -> & H1 & H2 & H3 & Hl).
    cbn. rewrite H1, H2, H3. cbn. rewrite andb_true_r.
    apply forallb_forall. intros x Hx.
    rewrite Forall_forall in Hl. destruct (Hl x Hx) as [s ->]. reflexivity.
Qed.

(** C10.  The Gmail module's [IImapMessageAttributes] has no heritage
    clause and exactly the members 'x-gm-thrid' (string), 'x-gm-msgid'
    (string) and 'x-gm-labels' (string array).  It shares no member name
    with the base interface of 'imap/types', so none of uid, flags, date,
    struct, size is a member of it: an object with the three Gmail
    properties alone inhabits the Gmail shape and not the base one, and an
    object with the five base properties alone inhabits the base shape and
    not the Gmail one. *)
Theorem Gmail_attributes_are_separate :
  extends Gmail.IImapMessageAttributes = [] /\
  members Gmail.IImapMessageAttributes =
    [ ("x-gm-thrid", TString); ("x-gm-msgid", TString);
      ("x-gm-labels", TArray TString) ] /\
  (forall name, In name (member_names Gmail.IImapMessageAttributes) ->
                ~ In name (member_names ImapTypes.IImapMessageAttributes)) /\
  (forall name, In name ["uid"; "flags"; "date"; "struct"; "size"] ->
                ~ In name (member_names Gmail.IImapMessageAttributes)) /\
  (forall v,
      inhabits (interface_type Gmail.IImapMessageAttributes) v = true <->
      exists props thrid msgid labels,
        v = VObj props /\
        getProp "x-gm-thrid" props = Some (VStr thrid) /\
        getProp "x-gm-msgid" props = Some (VStr msgid) /\
        getProp "x-gm-labels" props = Some (VArr labels) /\
        Forall (fun l => exists s, l = VStr s) labels) /\
  (let g := VObj [ ("x-gm-thrid", VStr "1700000000000000001");
                   ("x-gm-msgid", VStr "1700000000000000002");
                   ("x-gm-labels", VArr [VStr "\Inbox"]) ] in
   inhabits (interface_type Gmail.IImapMessageAttributes) g = true /\
   inhabits (interface_type ImapTypes.IImapMessageAttributes) g = false) /\
  (let b := VObj [ ("uid", VNum 101); ("flags", VArr [VStr "\Seen"]);
                   ("date", VDate 0); ("struct", VArr []); ("size", VNum 2048) ] in
   inhabits (interface_type ImapTypes.IImapMessageAttributes) b = true /\
   inhabits (interface_type Gmail.IImapMessageAttributes) b = false).
Proof.
  split; [reflexivity|]. split; [reflexivity|].
  split.
  { intros name H. cbn in H |- *.
    repeat (destruct H as [<-|H]; [intros K; repeat (destruct K as [K|K]; [discriminate K|]); exact K|]).
    destruct H. }
  split.
  { intros name H. cbn in H |- *.
    repeat (destruct H as [<-|H]; [intros K; repeat (destruct K as [K|K]; [discriminate K|]); exact K|]).
    destruct H. }
  split; [exact Gmail_attributes_shape|].
  split; split; reflexivity.
Qed.

(** ** Expunge and the cached sequence numbers *)

Lemma renumber_uid (seq : N) (m : Tracker.message) :
  Tracker.uid (Tracker.renumber seq m) = Tracker.uid m.
Proof. unfold Tracker.renumber. now destruct (seq <? Tracker.seqno m)%N. Qed.

Lemma renumber_flags (seq : N) (m : Tracker.message) :
  Tracker.flags (Tracker.renumber seq m) = Tracker.flags m.
Proof. unfold Tracker.renumber. now destruct (seq <? Tracker.seqno m)%N. Qed.

Lemma renumber_above (seq : N) (m : Tracker.message) :
  (seq < Tracker.seqno m)%N ->
  (Tracker.seqno (Tracker.renumber seq m) + 1 = Tracker.seqno m)%N.
Proof.
  intros H. unfold Tracker.renumber.
  apply N.ltb_lt in H as E. rewrite E. cbn. lia.
Qed.

Lemma renumber_below (seq : N) (m : Tracker.message) :
  (Tracker.seqno m <= seq)%N -> Tracker.renumber seq m = m.
Proof.
  intros H. unfold Tracker.renumber.
  apply N.ltb_ge in H as E. now rewrite E.
Qed.

(** C3.  An [EXPUNGE seq] update keeps the cached messages in place, each
    with the UID (and flags) it had; a message cached above [seq] has its
    sequence number decremented by exactly one, one cached at or below
    [seq] is unchanged; the session state and the mailbox snapshot are
    untouched, and the one notification raised is [expunge seq]. *)
Theorem expunge_renumbers_cache (seq : N) (t : Tracker.tracker) :
  let t' := fst (Tracker.applyUntagged (Tracker.EXPUNGE seq) t) in
  Forall2 (fun m m' =>
             Tracker.uid m' = Tracker.uid m /\
             Tracker.flags m' = Tracker.flags m /\
             ((seq < Tracker.seqno m)%N ->
              (Tracker.seqno m' + 1 = Tracker.seqno m)%N) /\
             ((Tracker.seqno m <= seq)%N -> m' = m))
          (Tracker.cache t) (Tracker.cache t') /\
  map Tracker.uid (Tracker.cache t') = map Tracker.uid (Tracker.cache t) /\
  Tracker.session t' = Tracker.session t /\
  Tracker.box t' = Tracker.box t /\
  snd (Tracker.applyUntagged (Tracker.EXPUNGE seq) t) = [Tracker.expunge seq].
Proof.
  cbn. repeat split.
  - induction (Tracker.cache t) as [|m ms IH]; cbn; constructor; [|exact IH].
    auto using renumber_uid, renumber_flags, renumber_above, renumber_below.
  - rewrite map_map. apply map_ext. intros m. apply renumber_uid.
Qed.

(** ** setFlags *)

(** On a value of the declared type of the [flags] parameter, [flag_list]
    is the flag itself or the flags of the array. *)
Lemma flag_list_typed (fl : value) :
  inhabits Imap.setFlags_flags fl = true ->
  (exists f, fl = VStr f /\ Tracker.flag_list fl = [f]) \/
  (exists fs, fl = VArr (map VStr fs) /\ Tracker.flag_list fl = fs).
Proof.
  unfold Imap.setFlags_flags. rewrite inhabits_union. cbn [existsb].
  rewrite orb_false_r, orb_true_iff, inhabits_TString, inhabits_array.
  intros [[f ->]|(items & -> & H)]; [left; eauto|right].
  induction H as [|x r Hx Hr IH].
  - exists []. split; reflexivity.
  - destruct IH as (fs & E & L). apply inhabits_TString in Hx as [f ->].
    exists (f :: fs). injection E as ->. cbn in L |- *. now rewrite L.
Qed.

(** C7.  Whatever way the source selects messages, setting the same flags
    twice in succession leaves every message with the flags it has after
    setting them once: the flags given, on the messages the source
    selects, and its former flags on every other message. *)
Theorem setFlags_idempotent
    (selects : value -> Tracker.message -> bool)
    (source fl : value) (msgs : list Tracker.message) :
  Tracker.setFlags selects source fl (Tracker.setFlags selects source fl msgs)
  = Tracker.setFlags selects source fl msgs /\
  Forall2 (fun m m' =>
             Tracker.uid m' = Tracker.uid m /\
             Tracker.seqno m' = Tracker.seqno m /\
             Tracker.flags m' = if selects source m
                                then Tracker.flag_list fl
                                else Tracker.flags m)
          msgs (Tracker.setFlags selects source fl msgs).
Proof.
  split; [|induction msgs as [|m ms IH]; cbn; constructor;
           [destruct (selects source m); auto|exact IH]].
  unfold Tracker.setFlags. rewrite map_map. apply map_ext. intros m.
  destruct (selects source m) eqn:E.
  - match goal with |- (if ?c then _ else _) = _ => destruct c end; reflexivity.
  - now rewrite E.
Qed.

(** ** Wire text: numbers and fields *)

Module WireFacts.
Import Wire.

Lemma to_uint_nonnil (n : N) : N.to_uint n <> Decimal.Nil.
Proof.
  destruct n as [|p]; cbn; [discriminate|].
  apply DecimalPos.Unsigned.to_uint_nonnil.
Qed.

Lemma parseN_printN (n : N) : parseN (printN n) = Some n.
Proof.
  unfold parseN, printN.
  rewrite NilZero.usu by apply to_uint_nonnil.
  cbn. now rewrite DecimalN.Unsigned.of_to.
Qed.

Lemma printN_inj (n m : N) : printN n = printN m -> n = m.
Proof.
  intros H. apply (f_equal parseN) in H.
  rewrite !parseN_printN in H. now injection H.
Qed.



Lemma split_nonempty (sep : ascii) (s : string) : split sep s <> [].
Proof.
  destruct s as [|c r]; cbn; [discriminate|].
  destruct (Ascii.eqb c sep); [discriminate|].
  destruct (split sep r); discriminate.
Qed.





End WireFacts.


(** ** The command pipeline: tags *)

Module PipelineFacts.
Import Pipeline.

Lemma inv_empty : inv empty.
Proof. split; constructor. Qed.

Lemma lookup_Some (t : N) (cmds : list PendingCommand) (c : PendingCommand) :
  lookup t cmds = Some c -> In c cmds /\ tag c = t.
Proof.
  unfold lookup. intros H. apply find_some in H as [Hin Ht].
  split; [assumption|]. now apply N.eqb_eq.
Qed.

Lemma lookup_None (t : N) (cmds : list PendingCommand) :
  lookup t cmds = None -> ~ In t (map tag cmds).
Proof.
  unfold lookup. intros H Hin. apply in_map_iff in Hin as (c & Hc & Hin).
  apply (find_none _ _ H) in Hin. apply N.eqb_neq in Hin. contradiction.
Qed.

Lemma in_without (t : N) (cmds : list PendingCommand) (c : PendingCommand) :
  In c (without t cmds) <-> In c cmds /\ tag c <> t.
Proof.
  unfold without. rewrite filter_In, negb_true_iff, N.eqb_neq. reflexivity.
Qed.

Lemma tags_without (t : N) (cmds : list PendingCommand) :
  map tag (without t cmds) = filter (fun t' => negb (t' =? t)%N) (map tag cmds).
Proof.
  unfold without. induction cmds as [|c r IH]; cbn; [reflexivity|].
  destruct (tag c =? t)%N; cbn; now rewrite IH.
Qed.

Lemma NoDup_filter {A : Type} (f : A -> bool) (l : list A) :
  NoDup l -> NoDup (filter f l).
Proof.
  induction 1 as [|a l Hn Hl IH]; cbn; [constructor|].
  destruct (f a); [constructor|]; auto.
  intros Hin. apply filter_In in Hin. tauto.
Qed.

Lemma same_tag_same_command (cmds : list PendingCommand) (c c' : PendingCommand) :
  NoDup (map tag cmds) -> In c cmds -> In c' cmds -> tag c = tag c' -> c = c'.
Proof.
  induction cmds as [|x r IH]; cbn; [contradiction|].
  intros Hnd Hc Hc' Ht. inversion Hnd as [|? ? Hx Hr]; subst.
  destruct Hc as [->|Hc], Hc' as [->|Hc']; auto.
  - exfalso. apply Hx. rewrite Ht. now apply in_map.
  - exfalso. apply Hx. rewrite <- Ht. now apply in_map.
Qed.

Lemma inv_send (cmd : string) (p : pipeline) : inv p -> inv (snd (send cmd p)).
Proof.
  intros [Hnd Hlt]. unfold inv, tags, send in *. cbn. rewrite map_app. cbn. split.
  - apply NoDup_app; [assumption|repeat constructor; intros []|].
    intros t Ht [<-|[]]. rewrite Forall_forall in Hlt. specialize (Hlt _ Ht). lia.
  - apply Forall_app. split.
    + revert Hlt. apply Forall_impl. intros t. lia.
    + repeat constructor. lia.
Qed.

Lemma inv_without (t : N) (p : pipeline) (cs : list N) :
  inv p ->
  inv {| counter := counter p; pending := without t (pending p); cancelled := cs |}.
Proof.
  intros [Hnd Hlt]. unfold inv, tags in *. cbn. rewrite tags_without. split.
  - now apply NoDup_filter.
  - apply Forall_forall. intros x Hx. apply filter_In in Hx as [Hx _].
    rewrite Forall_forall in Hlt. now apply Hlt.
Qed.

Lemma inv_step (p p' : pipeline) (c : call) :
  step p c = inr p' -> inv p -> inv p'.
Proof.
  destruct c as [cmd|t st txt|t]; cbn.
  - intros [= <-]. apply inv_send.
  - unfold onTaggedResponse. destruct (lookup t (pending p)).
    + intros [= <-]. apply inv_without.
    + destruct (existsb (N.eqb t) (cancelled p)); [|discriminate].
      intros [= <-]. exact (fun H => H).
  - unfold cancel. destruct (lookup t (pending p)); cbn.
    + intros [= <-]. apply inv_without.
    + now intros [= <-].
Qed.

Lemma inv_run (cs : list call) (p p' : pipeline) :
  run p cs = inr p' -> inv p -> inv p'.
Proof.
  revert p. induction cs as [|c r IH]; cbn; intros p.
  - now intros [= <-].
  - destruct (step p c) as [e|q] eqn:E; [discriminate|].
    intros Hr Hp. apply (IH q Hr). exact (inv_step _ _ _ E Hp).
Qed.

Lemma tag_text_inj (t t' : N) : tag_text t = tag_text t' -> t = t'.
Proof.
  unfold tag_text. intros [= H]. now apply WireFacts.printN_inj.
Qed.

End PipelineFacts.

(** C6.  In every state the pipeline reaches from the empty one by sends,
    tagged responses and cancels, in any interleaving: the outstanding
    tags are pairwise distinct; the tag a further [send] takes is not
    outstanding, and the tags stay distinct after it; a tagged response
    that resolves a command resolves the outstanding command carrying its
    tag (the only one with that tag) with the outcome of its status, and
    takes that command and no other out of the queue; a response that
    resolves nothing, or is refused as a protocol error, carries a tag that
    is not outstanding; and distinct tags have distinct wire texts. *)
Theorem tagged_completion_matches (cs : list Pipeline.call) (p : Pipeline.pipeline) :
  Pipeline.run Pipeline.empty cs = inr p ->
  NoDup (Pipeline.tags p) /\
  (forall cmd, ~ In (fst (Pipeline.send cmd p)) (Pipeline.tags p)) /\
  (forall cmd, NoDup (Pipeline.tags (snd (Pipeline.send cmd p)))) /\
  (forall t st txt p' r,
      Pipeline.onTaggedResponse t st txt p = inr (p', r) ->
      match r with
      | Some (c, out) =>
          In c (Pipeline.pending p) /\ Pipeline.tag c = t /\
          out = Pipeline.complete st txt /\
          (forall c', In c' (Pipeline.pending p) -> Pipeline.tag c' = t -> c' = c) /\
          (forall c', In c' (Pipeline.pending p') <->
                      In c' (Pipeline.pending p) /\ c' <> c)
      | None =>
          ~ In t (Pipeline.tags p) /\ Pipeline.pending p' = Pipeline.pending p
      end) /\
  (forall t st txt,
      Pipeline.onTaggedResponse t st txt p = inl Pipeline.ProtocolError ->
      ~ In t (Pipeline.tags p)) /\
  (forall t t', Pipeline.tag_text t = Pipeline.tag_text t' -> t = t').
Proof.
  intros Hrun.
  pose proof (PipelineFacts.inv_run _ _ _ Hrun PipelineFacts.inv_empty) as Hinv.
  destruct Hinv as [Hnd Hlt]. split; [exact Hnd|].
  split; [|split; [|split; [|split; [|exact PipelineFacts.tag_text_inj]]]].
  - intros cmd Hin. cbn in Hin. rewrite Forall_forall in Hlt.
    specialize (Hlt _ Hin). lia.
  - intros cmd. apply (PipelineFacts.inv_send cmd p). now split.
  - intros t st txt p' r. unfold Pipeline.onTaggedResponse.
    destruct (Pipeline.lookup t (Pipeline.pending p)) as [c|] eqn:E.
    + intros [= <- <-]. apply PipelineFacts.lookup_Some in E as [Hin Ht].
      split; [assumption|]. split; [assumption|]. split; [reflexivity|]. split.
      * intros c' Hc' Ht'. apply (PipelineFacts.same_tag_same_command (Pipeline.pending p));
          auto. congruence.
      * intros c'. cbn. rewrite PipelineFacts.in_without. split.
        -- intros [Hc' Hne]. split; [assumption|]. intros ->. contradiction.
        -- intros [Hc' Hne]. split; [assumption|]. intros Ht'. apply Hne.
           apply (PipelineFacts.same_tag_same_command (Pipeline.pending p)); auto.
           congruence.
    + destruct (existsb (N.eqb t) (Pipeline.cancelled p)); [|discriminate].
      intros [= <- <-]. split; [|reflexivity].
      now apply PipelineFacts.lookup_None.
  - intros t st txt. unfold Pipeline.onTaggedResponse.
    destruct (Pipeline.lookup t (Pipeline.pending p)) as [c|] eqn:E; [discriminate|].
    intros _. now apply PipelineFacts.lookup_None.
Qed.

(** Two commands sent and the first one completed: the second is still
    outstanding under its own tag. *)
Lemma two_sends_one_completion :
  Pipeline.run Pipeline.empty
    [ Pipeline.Send "SEARCH UNSEEN";
      Pipeline.Send "FETCH 101 BODY[TEXT]";
      Pipeline.Response 0 Pipeline.OK "SEARCH completed" ]
  = inr {| Pipeline.counter := 2;
           Pipeline.pending :=
             [ {| Pipeline.tag := 1; Pipeline.text := "FETCH 101 BODY[TEXT]" |} ];
           Pipeline.cancelled := [] |} /\
  NoDup (Pipeline.tags
           {| Pipeline.counter := 2;
              Pipeline.pending :=
                [ {| Pipeline.tag := 1; Pipeline.text := "FETCH 101 BODY[TEXT]" |} ];
              Pipeline.cancelled := [] |}).
Proof.
  split; [reflexivity|].
  exact (proj1 (tagged_completion_matches
                  [ Pipeline.Send "SEARCH UNSEEN";
                    Pipeline.Send "FETCH 101 BODY[TEXT]";
                    Pipeline.Response 0 Pipeline.OK "SEARCH completed" ]
                  _ eq_refl)).
Defined.

(** ** Observers and how often they fire *)

Module DispatcherFacts.
Import Dispatcher.











(** The bound of [once] is not the event's: an observer for 'end' added
    with [on], which [IConnection] does not declare for 'end', is called at
    every emission. *)
Lemma undeclared_end_observer_fires_twice :
  declared {| event := "end"; how := Imap.on; id := 0 |} = false /\
  fired 0 (dispatch ["end"; "end"] [ {| event := "end"; how := Imap.on; id := 0 |} ]) = 2.
Proof. split; reflexivity. Qed.


End DispatcherFacts.




(** ** The text of a search, as the server reads it *)

Module LexFacts.
Import SearchKey Server.

















Section Rendering.
Variable threshold : nat.



End Rendering.

End LexFacts.

Module ParseFacts.
Import SearchKey Server.









End ParseFacts.

(** ** The keys the compiler makes *)

Module CompilerFacts.
Import SearchKey Compiler.






Section Dialect.
Variable imapDate : Z -> string.









End Dialect.


End CompilerFacts.

(** ** The round trip of a search *)

Module SearchFacts.
Import SearchKey.

Section Search.
Variable threshold : nat.
Variable imapDate : Z -> string.
Variable message : Type.
Variable uid_of : message -> N.
Variable holds : string -> list token -> message -> bool.







End Search.

End SearchFacts.




(** ** The search grammar against the spec's variant: what it admits *)

Module VariantFacts.
Import SearchCriterion.











End VariantFacts.



(** * Further properties of the declarations *)

(** ** The Gmail grammar and the keyword checks *)

(** X1.  The Gmail grammar admits exactly the values of the base grammar: a
    value inhabits [GSearchTerm] iff it inhabits [SearchTerm], and the
    criteria parameters of the two [search] declarations admit the same
    arrays.  Every [GmailSearchTerm] is a pair of strings and so already a
    [SearchTermUID]. *)
Theorem Gmail_grammar_admits_the_same_values :
  (forall v, inhabits Gmail.GSearchTerm v = inhabits SearchTerm v) /\
  (forall v, inhabits Gmail.search_criteria v = inhabits Imap.search_criteria v) /\
  (forall v, inhabits Gmail.GmailSearchTerm v = true -> inhabits SearchTerm v = true).
Proof.
  split; [exact GrammarFacts.GSearchTerm_same|]. split.
  - intros v. destruct v as [| | | | | |items|]; try reflexivity.
    cbn [Gmail.search_criteria Imap.search_criteria inhabits].
    apply GrammarFacts.forallb_pointwise. exact GrammarFacts.GSearchTerm_same.
  - intros v H. now apply GrammarFacts.UID_is_SearchTerm, GrammarFacts.GmailSearchTerm_is_UID.
Qed.

(** X2.  A value is a [_SearchTerm] exactly when it is a bare flag keyword, a
    date keyword with a [Date] object, or an array of numbers and strings:
    the string, header and integer terms, and the date terms on a string,
    are arrays of numbers and strings.  So the keyword is checked in two
    places only: a string is a [SearchTerm] iff it is one of the flag
    keywords or its negation, and a pair of a string and a [Date] iff the
    string is one of the date keywords or its negation. *)
Theorem keywords_checked_when_bare_or_dated :
  (forall v, inhabits _SearchTerm v
             = inhabits SearchTermNoParam v || inhabits dated v
               || inhabits SearchTermUID v) /\
  (forall k, inhabits SearchTerm (VStr k) = true <->
             In k (with_negations SearchCriterion.flag_keys)) /\
  (forall k ms, inhabits SearchTerm (VArr [VStr k; VDate ms]) = true <->
                In k (with_negations SearchCriterion.date_keys)).
Proof.
  split; [exact GrammarFacts._SearchTerm_told_apart|]. split.
  - intros k. rewrite GrammarFacts.SearchTerm_unfold, GrammarFacts._SearchTerm_told_apart.
    change (inhabits dated (VStr k)) with false.
    change (inhabits SearchTermUID (VStr k)) with false.
    change (inhabits (TTuple [TLit "OR"; _SearchTerm; _SearchTerm]) (VStr k)) with false.
    rewrite !orb_false_r.
    change SearchTermNoParam with (lits (with_negations SearchCriterion.flag_keys)).
    apply GrammarFacts.inhabits_lits_VStr.
  - intros k ms. rewrite GrammarFacts.SearchTerm_unfold, GrammarFacts._SearchTerm_told_apart.
    change (inhabits SearchTermNoParam (VArr [VStr k; VDate ms])) with false.
    change (inhabits SearchTermUID (VArr [VStr k; VDate ms])) with false.
    assert (O : inhabits (TTuple [TLit "OR"; _SearchTerm; _SearchTerm])
                  (VArr [VStr k; VDate ms]) = false).
    { cbn [inhabits all2]. now rewrite !andb_false_r. }
    rewrite O, !orb_false_r, orb_false_l.
    unfold dated. rewrite inhabits_pair, <- GrammarFacts.inhabits_lits_VStr. split.
    + intros (x & y & [= <- <-] & Hx & _). exact Hx.
    + intros H. eexists _, _. repeat split. exact H.
Qed.

(** X3.  Every array of numbers and strings is a [SearchTerm], a
    [GSearchTerm] and a [MessageSource], whatever its first element: the
    types do not catch a misspelled keyword in a term with string or number
    arguments. *)
Theorem any_array_of_scalars_is_a_SearchTerm (items : list value) :
  forallb scalar items = true ->
  inhabits SearchTerm (VArr items) = true /\
  inhabits Gmail.GSearchTerm (VArr items) = true /\
  inhabits MessageSource (VArr items) = true.
Proof.
  intros H.
  assert (U : inhabits SearchTermUID (VArr items) = true) by exact H.
  split; [now apply GrammarFacts.UID_is_SearchTerm|]. split.
  - rewrite GrammarFacts.GSearchTerm_same. now apply GrammarFacts.UID_is_SearchTerm.
  - now apply GrammarFacts.UID_is_MessageSource.
Qed.

(** The misspelled term ['FORM', 'a@b.com']. *)
Lemma misspelled_keyword_is_accepted :
  forallb scalar [VStr "FORM"; VStr "a@b.com"] = true /\
  inhabits SearchTerm (VArr [VStr "FORM"; VStr "a@b.com"]) = true.
Proof.
  split; [reflexivity|].
  exact (proj1 (any_array_of_scalars_is_a_SearchTerm
                  [VStr "FORM"; VStr "a@b.com"] eq_refl)).
Defined.

(** ** From one operation to the next *)

Module FlowFacts.

Lemma every_source_is_MessageSource (m : string * (ty * ty)) :
  In m (Imap.IConnectionCommon_transfers ++ Imap.IConnectionCommon_mutators
        ++ Gmail.IConnectionCommon_labels) ->
  fst (snd m) = MessageSource.
Proof.
  cbn [app In Imap.IConnectionCommon_transfers Imap.IConnectionCommon_mutators
       Gmail.IConnectionCommon_labels].
  intros H. repeat (destruct H as [<-|H]; [reflexivity|]). destruct H.
Qed.

Lemma every_second_is_string_or_strings (m : string * (ty * ty)) :
  In m (Imap.IConnectionCommon_mutators ++ Gmail.IConnectionCommon_labels) ->
  snd (snd m) = TUnion [TString; TArray TString].
Proof.
  cbn [app In Imap.IConnectionCommon_mutators Gmail.IConnectionCommon_labels].
  intros H. repeat (destruct H as [<-|H]; [reflexivity|]). destruct H.
Qed.

Lemma numbers_are_UID (v : value) :
  inhabits SearchCallback_uids v = true -> inhabits SearchTermUID v = true.
Proof.
  intros H. apply inhabits_array in H as (items & -> & H).
  apply inhabits_array. exists items. split; [reflexivity|].
  revert H. apply Forall_impl. intros x Hx.
  apply CriterionFacts.inhabits_TNumber in Hx as [n ->]. reflexivity.
Qed.

Lemma flags_are_strings (v : value) :
  inhabits (TArray ImapMessageFlags) v = true ->
  inhabits (TUnion [TString; TArray TString]) v = true.
Proof.
  intros H. apply inhabits_array in H as (items & -> & H).
  rewrite inhabits_union. cbn [existsb].
  assert (A : inhabits (TArray TString) (VArr items) = true).
  { apply inhabits_array. exists items. split; [reflexivity|].
    revert H. apply Forall_impl. intros x Hx.
    apply GrammarFacts.lits_are_strings in Hx as [k ->]. reflexivity. }
  rewrite A. now rewrite orb_true_r.
Qed.

End FlowFacts.

(** X4.  The [uids] a [SearchCallback] receives are accepted as the source
    of [fetch], of [copy] and [move], of every flag, keyword and label
    method, and as a term of a further search. *)
Theorem search_results_are_sources (v : value) :
  inhabits SearchCallback_uids v = true ->
  inhabits Imap.fetch_source v = true /\
  (forall m, In m (Imap.IConnectionCommon_transfers ++ Imap.IConnectionCommon_mutators
                   ++ Gmail.IConnectionCommon_labels) ->
             inhabits (fst (snd m)) v = true) /\
  inhabits SearchTerm v = true.
Proof.
  intros H. apply FlowFacts.numbers_are_UID in H.
  split; [now apply GrammarFacts.UID_is_MessageSource|]. split.
  - intros m Hm. rewrite (FlowFacts.every_source_is_MessageSource m Hm).
    now apply GrammarFacts.UID_is_MessageSource.
  - now apply GrammarFacts.UID_is_SearchTerm.
Qed.

(** The search result [101, 102]. *)
Lemma search_results_101_102_are_sources :
  inhabits SearchCallback_uids (VArr [VNum 101; VNum 102]) = true /\
  inhabits Imap.fetch_source (VArr [VNum 101; VNum 102]) = true.
Proof.
  split; [reflexivity|].
  exact (proj1 (search_results_are_sources (VArr [VNum 101; VNum 102]) eq_refl)).
Defined.

Module ObjectFacts.

Lemma TObject_member (members : list (string * ty)) (v : value) (k : string) (t : ty) :
  inhabits (TObject members) v = true -> In (k, t) members ->
  exists props x, v = VObj props /\ getProp k props = Some x /\ inhabits t x = true.
Proof.
  destruct v as [| | | | | | |props]; cbn [inhabits]; try discriminate.
  intros H Hin. rewrite forallb_forall in H. specialize (H _ Hin). cbn [fst snd] in H.
  destruct (getProp k props) as [x|] eqn:E; [|discriminate].
  exists props, x. auto.
Qed.

Lemma has_members_member (ms : list member) (props : list (string * value)) (m : member) :
  has_members ms (VObj props) = true -> In m ms -> has_member props m = true.
Proof.
  cbn [has_members]. rewrite andb_true_iff, forallb_forall. intros [H _]. auto.
Qed.

Lemma shares_nothing (ms : list member) (props : list (string * value)) :
  (forall m, In m ms -> getProp (m_name m) props = None) ->
  shares_member ms props = false.
Proof.
  intros H. unfold shares_member. induction ms as [|m r IH]; cbn; [reflexivity|].
  rewrite (H m) by now left. apply IH. intros m' Hm'. apply H. now right.
Qed.

Lemma required_member (props : list (string * value)) (m : member) :
  has_member props m = true -> m_optional m = false ->
  exists x, getProp (m_name m) props = Some x /\ inhabits (m_type m) x = true.
Proof.
  unfold has_member. intros H Hreq. rewrite Hreq in H.
  destruct (getProp (m_name m) props) as [x|] eqn:E; [|discriminate].
  exists x. split; [reflexivity|]. destruct x; exact H.
Qed.

Lemma optional_member (props : list (string * value)) (m : member) (x : value) :
  has_member props m = true -> getProp (m_name m) props = Some x ->
  x = VUndefined \/ inhabits (m_type m) x = true.
Proof.
  unfold has_member. intros H E. rewrite E in H.
  destruct x; auto.
Qed.

End ObjectFacts.

(** X5.  Of every object of type [IImapMessageAttributes], the [uid] is
    accepted as the source of [fetch] and of every method that takes a
    source, the [flags] are accepted as the second argument of every flag,
    keyword and label method, and the [flags] and [date] together form
    valid [IAppendOptions]. *)
Theorem fetched_attributes_feed_the_mutators (attrs : value) :
  inhabits (interface_type ImapTypes.IImapMessageAttributes) attrs = true ->
  exists props u f d,
    attrs = VObj props /\
    getProp "uid" props = Some u /\
    getProp "flags" props = Some f /\
    getProp "date" props = Some d /\
    inhabits Imap.fetch_source u = true /\
    (forall m, In m (Imap.IConnectionCommon_transfers ++ Imap.IConnectionCommon_mutators
                     ++ Gmail.IConnectionCommon_labels) ->
               inhabits (fst (snd m)) u = true) /\
    (forall m, In m (Imap.IConnectionCommon_mutators ++ Gmail.IConnectionCommon_labels) ->
               inhabits (snd (snd m)) f = true) /\
    has_members Imap.IAppendOptions (VObj [("flags", f); ("date", d)]) = true.
Proof.
  intros H. unfold interface_type in H.
  destruct (ObjectFacts.TObject_member _ _ "uid" TNumber H) as (props & u & -> & Eu & Hu);
    [cbn; auto|].
  destruct (ObjectFacts.TObject_member _ _ "flags" (TArray ImapMessageFlags) H)
    as (props' & f & [= <-] & Ef & Hf); [cbn; auto|].
  destruct (ObjectFacts.TObject_member _ _ "date" TDate H)
    as (props' & d & [= <-] & Ed & Hd); [cbn; auto 6|].
  apply CriterionFacts.inhabits_TNumber in Hu as [n ->].
  apply FlowFacts.flags_are_strings in Hf.
  destruct d; try discriminate Hd.
  exists props, (VNum n), f, (VDate ms). repeat (split; [first [reflexivity|assumption]|]).
  split; [|split].
  - intros m Hm. now rewrite (FlowFacts.every_source_is_MessageSource m Hm).
  - intros m Hm. now rewrite (FlowFacts.every_second_is_string_or_strings m Hm).
  - cbn [has_members Imap.IAppendOptions forallb has_member m_name m_optional m_type getProp].
    cbn [String.eqb Ascii.eqb Bool.eqb]. cbn [andb].
    destruct f; cbn in Hf |- *; try discriminate Hf; try reflexivity.
    now rewrite Hf.
Qed.

(** The attributes of a read message. *)
Lemma attributes_of_message_101_feed_the_mutators :
  inhabits (interface_type ImapTypes.IImapMessageAttributes)
    (VObj [ ("uid", VNum 101); ("flags", VArr [VStr "\Seen"]);
            ("date", VDate 0); ("struct", VArr []); ("size", VNum 2048) ]) = true /\
  exists props u f d,
    VObj [ ("uid", VNum 101); ("flags", VArr [VStr "\Seen"]);
           ("date", VDate 0); ("struct", VArr []); ("size", VNum 2048) ] = VObj props /\
    getProp "uid" props = Some u /\
    getProp "flags" props = Some f /\
    getProp "date" props = Some d /\
    inhabits Imap.fetch_source u = true /\
    (forall m, In m (Imap.IConnectionCommon_transfers ++ Imap.IConnectionCommon_mutators
                     ++ Gmail.IConnectionCommon_labels) ->
               inhabits (fst (snd m)) u = true) /\
    (forall m, In m (Imap.IConnectionCommon_mutators ++ Gmail.IConnectionCommon_labels) ->
               inhabits (snd (snd m)) f = true) /\
    has_members Imap.IAppendOptions (VObj [("flags", f); ("date", d)]) = true.
Proof.
  split; [reflexivity|].
  exact (fetched_attributes_feed_the_mutators
           (VObj [ ("uid", VNum 101); ("flags", VArr [VStr "\Seen"]);
                   ("date", VDate 0); ("struct", VArr []); ("size", VNum 2048) ])
           eq_refl).
Defined.

(** X6.  Of every object of the Gmail attribute type, the thread id and the
    message id give the criteria [['X-GM-THRID', thrid], ['X-GM-MSGID',
    msgid]] accepted by the Gmail [search]; each single label gives a
    [GmailSearchTerm] on 'X-GM-LABELS', while the label array as a whole
    does not give a [GSearchTerm]; and the label array is accepted as the
    [labels] of [setLabels], [addLabels] and [delLabels]. *)
Theorem Gmail_attributes_feed_search_and_labels (attrs : value) :
  inhabits (interface_type Gmail.IImapMessageAttributes) attrs = true ->
  exists props thrid msgid labels,
    attrs = VObj props /\
    getProp "x-gm-thrid" props = Some thrid /\
    getProp "x-gm-msgid" props = Some msgid /\
    getProp "x-gm-labels" props = Some (VArr labels) /\
    inhabits Gmail.search_criteria
      (VArr [ VArr [VStr "X-GM-THRID"; thrid]; VArr [VStr "X-GM-MSGID"; msgid] ]) = true /\
    (forall l, In l labels ->
               inhabits Gmail.GmailSearchTerm (VArr [VStr "X-GM-LABELS"; l]) = true) /\
    inhabits Gmail.GSearchTerm (VArr [VStr "X-GM-LABELS"; VArr labels]) = false /\
    (forall m, In m Gmail.IConnectionCommon_labels ->
               inhabits (snd (snd m)) (VArr labels) = true).
Proof.
  intros H. apply Gmail_attributes_shape in H
    as (props & thrid & msgid & labels & -> & Et & Em & El & Hl).
  exists props, (VStr thrid), (VStr msgid), labels.
  repeat (split; [first [reflexivity|assumption]|]). split; [|split].
  - intros l Hin. rewrite Forall_forall in Hl. destruct (Hl l Hin) as [s ->]. reflexivity.
  - rewrite GrammarFacts.GSearchTerm_same, GrammarFacts.SearchTerm_unfold,
      GrammarFacts._SearchTerm_told_apart.
    cbn [inhabits all2 forallb existsb dated lits map with_negations
         flat_map app SearchCriterion.date_keys SearchTermNoParam SearchTermUID andb orb].
    cbn. now rewrite ?andb_false_r.
  - intros m Hm.
    rewrite (FlowFacts.every_second_is_string_or_strings m)
      by (apply in_or_app; now right).
    rewrite inhabits_union. cbn [existsb].
    assert (A : inhabits (TArray TString) (VArr labels) = true).
    { apply inhabits_array. exists labels. split; [reflexivity|].
      revert Hl. apply Forall_impl. intros x [s ->]. reflexivity. }
    rewrite A. now rewrite orb_true_r.
Qed.

(** The Gmail attributes of a message in the inbox. *)
Lemma Gmail_attributes_of_a_thread_feed_search :
  inhabits (interface_type Gmail.IImapMessageAttributes)
    (VObj [ ("x-gm-thrid", VStr "1700000000000000001");
            ("x-gm-msgid", VStr "1700000000000000002");
            ("x-gm-labels", VArr [VStr "\Inbox"]) ]) = true /\
  exists props thrid msgid labels,
    VObj [ ("x-gm-thrid", VStr "1700000000000000001");
           ("x-gm-msgid", VStr "1700000000000000002");
           ("x-gm-labels", VArr [VStr "\Inbox"]) ] = VObj props /\
    getProp "x-gm-thrid" props = Some thrid /\
    getProp "x-gm-msgid" props = Some msgid /\
    getProp "x-gm-labels" props = Some (VArr labels) /\
    inhabits Gmail.search_criteria
      (VArr [ VArr [VStr "X-GM-THRID"; thrid]; VArr [VStr "X-GM-MSGID"; msgid] ]) = true /\
    (forall l, In l labels ->
               inhabits Gmail.GmailSearchTerm (VArr [VStr "X-GM-LABELS"; l]) = true) /\
    inhabits Gmail.GSearchTerm (VArr [VStr "X-GM-LABELS"; VArr labels]) = false /\
    (forall m, In m Gmail.IConnectionCommon_labels ->
               inhabits (snd (snd m)) (VArr labels) = true).
Proof.
  split; [reflexivity|].
  exact (Gmail_attributes_feed_search_and_labels
           (VObj [ ("x-gm-thrid", VStr "1700000000000000001");
                   ("x-gm-msgid", VStr "1700000000000000002");
                   ("x-gm-labels", VArr [VStr "\Inbox"]) ])
           eq_refl).
Defined.

(** ** Options and configuration *)

(** X7.  The [options] of [fetch] are declared [{}], not [IFetchOptions].
    Every [IFetchOptions] value is accepted by [fetch].  All seven members
    of [IFetchOptions] are optional: the empty object inhabits it, and so
    does an object with any one member of its type alone.  But [fetch] also
    accepts what [IFetchOptions] rejects: an object that has properties and
    none of the seven, and an object whose [markSeen] is present and no
    boolean. *)
Theorem fetch_options_are_not_checked :
  (forall v, has_members Imap.IFetchOptions v = true -> Imap.fetch_options v = true) /\
  has_members Imap.IFetchOptions (VObj []) = true /\
  (forall m x, In m Imap.IFetchOptions -> inhabits (m_type m) x = true ->
               has_members Imap.IFetchOptions (VObj [(m_name m, x)]) = true) /\
  (forall props,
      props <> [] ->
      (forall m, In m Imap.IFetchOptions -> getProp (m_name m) props = None) ->
      has_members Imap.IFetchOptions (VObj props) = false /\
      Imap.fetch_options (VObj props) = true) /\
  (forall props x,
      getProp "markSeen" props = Some x ->
      x <> VUndefined -> (forall b, x <> VBool b) ->
      has_members Imap.IFetchOptions (VObj props) = false /\
      Imap.fetch_options (VObj props) = true).
Proof.
  split; [|split; [reflexivity|split; [|split]]].
  - intros v H. destruct v; try discriminate H. reflexivity.
  - intros m x Hm Hx. cbn [In Imap.IFetchOptions] in Hm.
    repeat (destruct Hm as [<-|Hm];
            [cbn in Hx |- *; destruct x; first [discriminate Hx|reflexivity|exact Hx|idtac];
             rewrite ?Hx; reflexivity|]).
    destruct Hm.
  - intros props Hne H. split; [|reflexivity].
    cbn [has_members]. apply andb_false_iff. right.
    change (weak Imap.IFetchOptions) with true. cbn [negb orb].
    destruct props as [|p r]; [contradiction|].
    now apply ObjectFacts.shares_nothing.
  - intros props x E Hu Hb. split; [|reflexivity].
    cbn [has_members]. apply andb_false_iff. left.
    cbn [Imap.IFetchOptions forallb]. unfold has_member at 1.
    cbn [m_name m_optional m_type]. rewrite E.
    destruct x; try reflexivity.
    + now contradiction Hu.
    + now contradiction (Hb b).
Qed.

(** X8.  Every [IConnectionConfig] has a [user] and a [password], both
    strings, whether or not a token is given in [xoauth] or [xoauth2]; its
    [keepalive], when present, is [true] or an object with all three of
    [interval], [idleInterval] and [forceNoop], and never [false]; its
    [autotls], when present, is 'always', 'required' or 'never'. *)
Theorem connection_config_requirements (props : list (string * value)) :
  has_members Imap.IConnectionConfig (VObj props) = true ->
  (exists u p, getProp "user" props = Some (VStr u) /\
               getProp "password" props = Some (VStr p)) /\
  getProp "keepalive" props <> Some (VBool false) /\
  (forall k, getProp "keepalive" props = Some k ->
             k = VUndefined \/ k = VBool true \/
             inhabits Imap.keepalive_settings k = true) /\
  (forall a, getProp "autotls" props = Some a ->
             a = VUndefined \/ a = VStr "always" \/ a = VStr "required" \/
             a = VStr "never").
Proof.
  intros H.
  assert (M : forall m, In m Imap.IConnectionConfig -> has_member props m = true)
    by (intros m; now apply ObjectFacts.has_members_member).
  assert (K : forall k, getProp "keepalive" props = Some k ->
                        k = VUndefined \/ k = VBool true \/
                        inhabits Imap.keepalive_settings k = true).
  { intros k E.
    destruct (ObjectFacts.optional_member props
                {| m_name := "keepalive"; m_optional := true;
                   m_type := TUnion [TLitBool true; Imap.keepalive_settings] |} k)
      as [->|Hk]; [apply M; cbn; auto 20|exact E|now left|].
    cbn [m_type] in Hk. rewrite inhabits_union in Hk. cbn [existsb] in Hk.
    rewrite orb_false_r in Hk. apply orb_true_iff in Hk as [Hk|Hk]; [|auto].
    destruct k; try discriminate Hk. destruct b; [auto|discriminate Hk]. }
  split; [|split; [|split; [exact K|]]].
  - destruct (ObjectFacts.required_member props
                {| m_name := "user"; m_optional := false; m_type := TString |})
      as (x & Ex & Hx); [apply M; cbn; auto|reflexivity|].
    destruct (ObjectFacts.required_member props
                {| m_name := "password"; m_optional := false; m_type := TString |})
      as (y & Ey & Hy); [apply M; cbn; auto|reflexivity|].
    cbn [m_name m_type] in *.
    apply inhabits_TString in Hx as [u ->]. apply inhabits_TString in Hy as [p ->].
    eauto.
  - intros E. destruct (K _ E) as [C|[C|C]]; discriminate C.
  - intros a E.
    destruct (ObjectFacts.optional_member props
                {| m_name := "autotls"; m_optional := true;
                   m_type := lits ["always"; "required"; "never"] |} a)
      as [->|Ha]; [apply M; cbn; auto 20|exact E|now left|].
    cbn [m_type] in Ha. apply inhabits_lits in Ha as (k & -> & Hk).
    cbn [In] in Hk. destruct Hk as [<-|[<-|[<-|[]]]]; auto.
Qed.

(** The configuration with a user and a password alone. *)
Lemma minimal_config_meets_the_requirements :
  has_members Imap.IConnectionConfig
    (VObj [("user", VStr "alice"); ("password", VStr "secret")]) = true /\
  getProp "keepalive" [("user", VStr "alice"); ("password", VStr "secret")]
  <> Some (VBool false).
Proof.
  split; [reflexivity|].
  exact (proj1 (proj2 (connection_config_requirements
                         [("user", VStr "alice"); ("password", VStr "secret")] eq_refl))).
Defined.
